(** * Universal Auth: capability policies and scope versioning

    Shallow embedding of the Open Policy Agent rules of [policy/authz.rego]
    (packages [authz] and [tenant]) over a model of the JSON [input]
    document, and of the scope-version manager described in
    [docs/SCOPE_MANAGEMENT_IMPLEMENTATION.md]. *)

From Stdlib Require Import ZArith String Ascii List Bool Lia.
From stdpp Require Import base decidable option list gmap strings.

Local Open Scope string_scope.
Local Open Scope Z_scope.

(** ** JSON documents and the fragment of Rego the policies use *)

(** A JSON value.  Numbers are integers (the policies never compute on an
    input number) and a string is its sequence of characters.  An object
    is its list of members; the keys of a parsed document are distinct, and
    a lookup takes the first member carrying the key. *)
#[warnings="-register-all"]
Inductive json : Type :=
| JNull
| JBool (b : bool)
| JNum (n : Z)
| JStr (s : string)
| JArr (xs : list json)
| JObj (kvs : list (string * json)).

Fixpoint json_eq_dec (x y : json) {struct x} : {x = y} + {x <> y}.
Proof.
  decide equality.
  - apply Bool.bool_dec.
  - apply Z.eq_dec.
  - apply String.string_dec.
  - apply (List.list_eq_dec json_eq_dec).
  - apply List.list_eq_dec. decide equality. apply String.string_dec.
Defined.

#[global] Instance json_eq_decision : EqDecision json := json_eq_dec.

(** A Rego term evaluates to a value or is undefined ([None]). *)
Abbreviation value := (option json).

Module Rego.

(** [obj[k]]: the first member of the object with key [k]. *)
Fixpoint member (k : string) (kvs : list (string * json)) : value :=
  match kvs with
  | [] => None
  | (k', v) :: rest => if String.eqb k k' then Some v else member k rest
  end.

(** The reference [v[k]]: objects are indexed by strings, arrays by
    in-range numbers; anything else is undefined. *)
Definition ref (v k : value) : value :=
  match v, k with
  | Some (JObj kvs), Some (JStr s) => member s kvs
  | Some (JArr xs), Some (JNum n) =>
      if 0 <=? n then nth_error xs (Z.to_nat n) else None
  | _, _ => None
  end.

(** The reference [v.name]. *)
Definition dot (v : value) (name : string) : value := ref v (Some (JStr name)).

(** The values [x] ranges over in [v[_]] and in [some x in v]. *)
Definition iter (v : value) : list json :=
  match v with
  | Some (JArr xs) => xs
  | Some (JObj kvs) => map snd kvs
  | _ => []
  end.

(** A term used as a statement succeeds when it is defined and not
    [false]. *)
Definition holds (v : value) : bool :=
  match v with
  | None | Some (JBool false) => false
  | Some _ => true
  end.

(** [a == b] succeeds when both sides are defined and equal. *)
Definition eq (a b : value) : bool :=
  match a, b with
  | Some x, Some y => bool_decide (x = y)
  | _, _ => false
  end.

(** [some x in v; body x], and [v[_]] bound by the statement [body]. *)
Definition some_in (v : value) (body : json -> bool) : bool :=
  existsb body (iter v).

(** A complete rule with [default r := false] and bodies [bs]. *)
Definition default_false (bs : list bool) : bool := existsb id bs.

(** A partial rule [r if { ... }]: [true] when a body succeeds, else
    undefined. *)
Definition partial_rule (bs : list bool) : value :=
  if existsb id bs then Some (JBool true) else None.

(** *** Built-in functions (undefined on operands of the wrong type) *)

Fixpoint has_suffix (s suffix : string) : bool :=
  if String.eqb s suffix then true
  else match s with
       | EmptyString => false
       | String _ s' => has_suffix s' suffix
       end.

Definition endswith (s suffix : value) : value :=
  match s, suffix with
  | Some (JStr a), Some (JStr b) => Some (JBool (has_suffix a b))
  | _, _ => None
  end.

Definition startswith (s pre : value) : value :=
  match s, pre with
  | Some (JStr a), Some (JStr b) => Some (JBool (String.prefix b a))
  | _, _ => None
  end.

Definition count (v : value) : value :=
  match v with
  | Some (JStr s) => Some (JNum (Z.of_nat (String.length s)))
  | Some (JArr xs) => Some (JNum (Z.of_nat (List.length xs)))
  | Some (JObj kvs) => Some (JNum (Z.of_nat (List.length kvs)))
  | _ => None
  end.

Definition minus (a b : value) : value :=
  match a, b with
  | Some (JNum x), Some (JNum y) => Some (JNum (x - y))
  | _, _ => None
  end.

(** [substring(s, offset, length)]: a negative offset is an error, a
    negative length takes the rest of the string, and the slice is cut at
    the end of the string. *)
Definition substring (s offset len : value) : value :=
  match s, offset, len with
  | Some (JStr a), Some (JNum o), Some (JNum l) =>
      if o <? 0 then None
      else if l <? 0
           then Some (JStr (String.substring (Z.to_nat o)
                              (String.length a - Z.to_nat o) a))
           else Some (JStr (String.substring (Z.to_nat o) (Z.to_nat l) a))
  | _, _, _ => None
  end.

End Rego.

Import Rego.

(** ** [package authz] *)

Module authz.

Section Rules.
Variable input : json.

Let required_capability : value := dot (Some input) "required_capability".
Let capabilities : value := dot (dot (Some input) "user") "capabilities".
Let tenant_id : value := dot (Some input) "tenant_id".
Let membership : value :=
  ref (dot (dot (Some input) "user") "tenant_memberships") tenant_id.

(** [allow if { input.user.capabilities[_] == "*" }] *)
Definition allow_admin : bool :=
  some_in capabilities (fun c => eq (Some c) (Some (JStr "*"))).

(** [allow if { input.user.capabilities[_] == input.required_capability }] *)
Definition allow_exact : bool :=
  some_in capabilities (fun c => eq (Some c) required_capability).

(** The body of the pattern rule below [some capability in ...]. *)
Definition wildcard_body (capability : json) : bool :=
  holds (endswith (Some capability) (Some (JStr "*")))
  && (let pre := substring (Some capability) (Some (JNum 0))
                   (minus (count (Some capability)) (Some (JNum 1))) in
      holds (startswith required_capability pre)).

(** [allow if { some capability in input.user.capabilities; ... }] *)
Definition allow_pattern : bool := some_in capabilities wildcard_body.

(** The guard shared by the two tenant rules. *)
Definition tenant_guard : bool :=
  holds tenant_id
  && holds membership
  && eq (dot membership "is_active") (Some (JBool true)).

Definition allow_tenant_exact : bool :=
  tenant_guard
  && some_in (dot membership "capabilities")
       (fun c => eq (Some c) required_capability).

Definition allow_tenant_admin : bool :=
  tenant_guard
  && some_in (dot membership "capabilities")
       (fun c => eq (Some c) (Some (JStr "*"))).

(** [default allow := false] and the five [allow if] rules. *)
Definition allow : bool :=
  default_false
    [allow_admin; allow_exact; allow_pattern;
     allow_tenant_exact; allow_tenant_admin].
End Rules.

End authz.

(** ** [package tenant] *)

Module tenant.

Section Rules.
Variable input : json.

Let capabilities : value := dot (dot (Some input) "user") "capabilities".
Let tenant_id : value := dot (Some input) "tenant_id".
Let requested_tenant_id : value := dot (Some input) "requested_tenant_id".
Let membership : value :=
  ref (dot (dot (Some input) "user") "tenant_memberships") tenant_id.

(** The data isolation check. *)
Definition data_access_same_tenant : bool :=
  holds tenant_id
  && holds requested_tenant_id
  && eq tenant_id requested_tenant_id
  && eq (dot membership "is_active") (Some (JBool true)).

Definition data_access_admin : bool :=
  some_in capabilities (fun c => eq (Some c) (Some (JStr "*"))).

(** [data_access] has no default: it is [true] or undefined. *)
Definition data_access : value :=
  partial_rule [data_access_same_tenant; data_access_admin].
End Rules.

End tenant.

(** ** Grants and what it means for one to match a request *)

(** [w] is a prefix of [r], character by character. *)
Definition is_prefix (w r : string) : Prop :=
  exists rest, r = String.append w rest.

Section Grants.
Variable input : json.

(** [input.required_capability] *)
Definition requested : value := dot (Some input) "required_capability".

(** The user's global grants, [input.user.capabilities[_]]. *)
Definition global_grants : list json :=
  iter (dot (dot (Some input) "user") "capabilities").

(** [input.user.tenant_memberships[input.tenant_id]] *)
Definition tenant_membership : value :=
  ref (dot (dot (Some input) "user") "tenant_memberships")
      (dot (Some input) "tenant_id").

(** The grants of that membership. *)
Definition tenant_grants : list json :=
  iter (dot tenant_membership "capabilities").

(** A [tenant_id] is supplied and the membership it names is active. *)
Definition membership_active : Prop :=
  is_Some (dot (Some input) "tenant_id")
  /\ dot tenant_membership "is_active" = Some (JBool true).
End Grants.

(** The grant is the requested capability itself. *)
Definition exact_match (g : json) (req : value) : Prop := req = Some g.

(** The grant is the bare wildcard. *)
Definition bare_wildcard (g : json) : Prop := g = JStr "*".

(** The grant is [w] followed by the marker, and [w] is a prefix of the
    requested string. *)
Definition prefix_wildcard (g : json) (req : value) : Prop :=
  exists w r, g = JStr (String.append w "*")
              /\ req = Some (JStr r) /\ is_prefix w r.

(** Some global grant matches the request in one of the three ways. *)
Definition global_grant_matches (input : json) : Prop :=
  exists g, In g (global_grants input)
            /\ (exact_match g (requested input)
                \/ bare_wildcard g
                \/ prefix_wildcard g (requested input)).

(** Some grant matches the request, the way the rules decide it: a global
    grant in one of the three ways, or a grant of the active membership
    that is the request itself or the bare wildcard. *)
Definition grant_matches (input : json) : Prop :=
  global_grant_matches input
  \/ (membership_active input
      /\ exists g, In g (tenant_grants input)
                   /\ (exact_match g (requested input) \/ bare_wildcard g)).

(** ** Sample inputs *)

Definition strs (l : list string) : json := JArr (map JStr l).

(** A membership record. *)
Definition membership_doc (active : bool) (caps : list string) : json :=
  JObj [("is_active", JBool active); ("capabilities", strs caps)].

(** A request by a user with global grants [caps] and no tenant context. *)
Definition sample (caps : list string) (req : string) : json :=
  JObj [("user", JObj [("capabilities", strs caps)]);
        ("required_capability", JStr req)].

(** A request in the context of tenant [t]. *)
Definition tenant_sample (caps : list string)
    (memberships : list (string * json)) (t req : string) : json :=
  JObj [("user", JObj [("capabilities", strs caps);
                       ("tenant_memberships", JObj memberships)]);
        ("tenant_id", JStr t);
        ("required_capability", JStr req)].


(** ** The evaluator's contract as the specification words it *)

(** A grant matches "by wildcard": it is the bare wildcard, or it ends in
    the marker and its literal prefix is a prefix of the request. *)
Definition wildcard_match (g : json) (req : value) : Prop :=
  bare_wildcard g \/ prefix_wildcard g req.

(** Some grant matches, with tenant-scoped grants matching "exactly or by
    wildcard" like global ones. *)
Definition stated_grant_matches (input : json) : Prop :=
  global_grant_matches input
  \/ (membership_active input
      /\ exists g, In g (tenant_grants input)
                   /\ (exact_match g (requested input)
                       \/ wildcard_match g (requested input))).

(** A data request by a member of tenant [t] for the data of tenant
    [requested_t]. *)
Definition data_sample (caps : list string)
    (memberships : list (string * json)) (t requested_t : string) : json :=
  JObj [("user", JObj [("capabilities", strs caps);
                       ("tenant_memberships", JObj memberships)]);
        ("tenant_id", JStr t);
        ("requested_tenant_id", JStr requested_t)].

(** ** The scope-version and session-consistency subsystem

    [services/scope_manager.py] and [services/session_service.py] are named
    by [docs/SCOPE_MANAGEMENT_IMPLEMENTATION.md] but are not among the
    sources; the definitions of this part follow the specification. *)

Module Scope.

Local Open Scope nat_scope.

(** A principal: a user together with its tenant context ([None] is the
    global scope). *)
Abbreviation key := (string * option string)%type.

(** Modelled from the spec: the CapabilitySnapshotStore, the external
    source of a principal's roles and direct grants and of the
    capabilities each role carries. *)
Record SnapshotStore := {
  assigned_roles : key -> gset string;
  direct_grants : key -> gset string;
  role_capabilities : string -> gset string
}.

(** Modelled from the spec: the effective scope of a principal, "expanding
    role→capability and merging direct grants" (the resolution step of
    ScopeVersionManager.recompute). *)
Definition effective_capabilities (store : SnapshotStore) (k : key) : gset string :=
  direct_grants store k
  ∪ ⋃ (role_capabilities store <$> elements (assigned_roles store k)).

(** Modelled from the spec: the ScopeVersion row; the map that holds the
    rows is keyed by (user_id, tenant_id). *)
Record ScopeVersion := {
  version : nat;
  capabilities : gset string;
  roles : gset string;
  checksum : string;
  last_updated : nat
}.

(** Modelled from the spec: the classification of a ScopeChangeEvent. *)
Inductive ChangeType :=
| role_added | role_removed | capability_added | capability_removed | mixed.

(** Modelled from the spec: the ScopeChangeEvent record. *)
Record ScopeChangeEvent := {
  id : nat;
  user_id : string;
  tenant_id : option string;
  old_version : nat;
  new_version : nat;
  added_capabilities : gset string;
  removed_capabilities : gset string;
  added_roles : gset string;
  removed_roles : gset string;
  change_type : ChangeType;
  timestamp : nat;
  processed : bool
}.

(** Modelled from the spec: the SessionScopeRecord. *)
Record SessionScopeRecord := {
  session_user_id : string;
  session_tenant_id : option string;
  scope_version_at_issue : nat;
  issued_at : nat;
  last_validated_at : nat
}.

(** Modelled from the spec: the persisted layout, a [scope_versions] table
    keyed by (user_id, tenant_id), the append-only [scope_change_events]
    log (oldest first, with the id its next event gets: ids grow with the
    order of emission, which is what replay "with id greater than that
    marker" relies on) and the [session_scope_records] table keyed by
    session_id. *)
Record State := {
  scope_versions : gmap key ScopeVersion;
  scope_change_events : list ScopeChangeEvent;
  next_event_id : nat;
  session_scope_records : gmap string SessionScopeRecord
}.

Definition init : State :=
  {| scope_versions := ∅; scope_change_events := [];
     next_event_id := 1;
     session_scope_records := ∅ |}.

(** Modelled from the spec: the configuration surface that validate reads. *)
Record Config := {
  grace_period : nat;
  soft_grace : bool;
  fail_open_on_lookup_error : bool
}.

(** Modelled from the spec: the result of Validate, "one of OK,
    STALE{grace_remaining}, INVALID". *)
Inductive Validation :=
| OK
| STALE (grace_remaining : nat)
| INVALID.



(** Modelled from the spec: ScopeVersionManager.get_version, "returns the
    current version or fails with NotInitialized if never computed"
    ([None] is NotInitialized). *)
Definition get_version (st : State) (k : key) : option nat :=
  version <$> scope_versions st !! k.

(** Modelled from the spec: the change_type of a diff, "classified as
    role_added/removed, capability_added/removed, or mixed". *)
Definition classify (cap_add cap_del role_add role_del : gset string) : ChangeType :=
  let e (s : gset string) := bool_decide (s = ∅) in
  if e cap_del && e role_add && e role_del && negb (e cap_add) then capability_added
  else if e cap_add && e role_add && e role_del && negb (e cap_del) then capability_removed
  else if e cap_add && e cap_del && e role_del && negb (e role_add) then role_added
  else if e cap_add && e cap_del && e role_add && negb (e role_del) then role_removed
  else mixed.

Section Manager.

(** Modelled from the spec: the checksum, "a stable digest over the
    canonicalized capability+role set"; any function of the two sets. *)
Variable digest : gset string -> gset string -> string.

(** Modelled from the spec: ScopeVersionManager.recompute.  No row: a row
    at version 1 and no event.  Same checksum: a no-op.  Changed checksum:
    the version incremented, the new sets and checksum stored, and one
    event describing the diff appended. *)
Definition recompute (store : SnapshotStore) (now : nat) (k : key)
    (st : State) : State :=
  let caps := effective_capabilities store k in
  let rls := assigned_roles store k in
  let sum := digest caps rls in
  match scope_versions st !! k with
  | None =>
      {| scope_versions :=
           <[k := {| version := 1; capabilities := caps; roles := rls;
                     checksum := sum; last_updated := now |}]>
             (scope_versions st);
         scope_change_events := scope_change_events st;
         next_event_id := next_event_id st;
         session_scope_records := session_scope_records st |}
  | Some row =>
      if decide (checksum row = sum) then st
      else
        let cap_add := caps ∖ capabilities row in
        let cap_del := capabilities row ∖ caps in
        let role_add := rls ∖ roles row in
        let role_del := roles row ∖ rls in
        {| scope_versions :=
             <[k := {| version := S (version row); capabilities := caps;
                       roles := rls; checksum := sum;
                       last_updated := now |}]>
               (scope_versions st);
           scope_change_events :=
             scope_change_events st ++
             [{| id := next_event_id st;
                 user_id := k.1; tenant_id := k.2;
                 old_version := version row;
                 new_version := S (version row);
                 added_capabilities := cap_add;
                 removed_capabilities := cap_del;
                 added_roles := role_add;
                 removed_roles := role_del;
                 change_type := classify cap_add cap_del role_add role_del;
                 timestamp := now;
                 processed := false |}];
           next_event_id := S (next_event_id st);
           session_scope_records := session_scope_records st |}
  end.

(** Modelled from the spec: a sequence of recompute calls on one
    (user_id, tenant_id), each against the store as it is at that call. *)
Definition recompute_all (calls : list (SnapshotStore * nat)) (k : key)
    (st : State) : State :=
  fold_left (fun s call => recompute call.1 call.2 k s) calls st.

(** Modelled from the spec: SessionIssued, "capture scope_version_at_issue
    via get_version (recomputing first if absent) and persist a
    SessionScopeRecord". *)
Definition session_issued (store : SnapshotStore) (now : nat)
    (session_id : string) (k : key) (st : State) : State :=
  let st' := match get_version st k with
             | Some _ => st
             | None => recompute store now k st
             end in
  {| scope_versions := scope_versions st';
     scope_change_events := scope_change_events st';
     next_event_id := next_event_id st';
     session_scope_records :=
       <[session_id := {| session_user_id := k.1; session_tenant_id := k.2;
                          scope_version_at_issue :=
                            default 1 (get_version st' k);
                          issued_at := now; last_validated_at := now |}]>
         (session_scope_records st') |}.

(** Modelled from the spec: SessionRefreshed, which captures the current
    version again for an existing record. *)
Definition session_refreshed (store : SnapshotStore) (now : nat)
    (session_id : string) (st : State) : State :=
  match session_scope_records st !! session_id with
  | None => st
  | Some r =>
      session_issued store now session_id
        (session_user_id r, session_tenant_id r) st
  end.

(** Modelled from the spec: invalidate, which removes the record from the
    active set. *)
Definition invalidate (session_id : string) (st : State) : State :=
  {| scope_versions := scope_versions st;
     scope_change_events := scope_change_events st;
     next_event_id := next_event_id st;
     session_scope_records := delete session_id (session_scope_records st) |}.

(** Modelled from the spec: the [processed] flag, "set once
    NotificationBroker has successfully delivered" the event. *)
Definition mark_processed (event_id : nat) (st : State) : State :=
  {| scope_versions := scope_versions st;
     scope_change_events :=
       (fun e =>
          if decide (id e = event_id)
          then {| id := id e; user_id := user_id e; tenant_id := tenant_id e;
                  old_version := old_version e; new_version := new_version e;
                  added_capabilities := added_capabilities e;
                  removed_capabilities := removed_capabilities e;
                  added_roles := added_roles e;
                  removed_roles := removed_roles e;
                  change_type := change_type e; timestamp := timestamp e;
                  processed := true |}
          else e) <$> scope_change_events st;
     next_event_id := next_event_id st;
     session_scope_records := session_scope_records st |}.

(** Modelled from the spec: the retention settings: [replay_retention],
    "how far back a reconnecting client may replay", and the lifetime
    after which a session record counts as expired (the spec names the
    expiry of a session without saying who sets it). *)
Record Retention := {
  replay_retention : nat;
  session_lifetime : nat
}.

(** Modelled from the spec: "old, fully processed, out-of-retention events
    are garbage-collected": an event goes when it is processed and its
    timestamp lies further back than the retention window. *)
Definition collectable (r : Retention) (now : nat) (e : ScopeChangeEvent) : bool :=
  processed e && (timestamp e + replay_retention r <? now).

Definition collect_garbage (r : Retention) (now : nat) (st : State) : State :=
  {| scope_versions := scope_versions st;
     scope_change_events :=
       filter (fun e => collectable r now e = false) (scope_change_events st);
     next_event_id := next_event_id st;
     session_scope_records := session_scope_records st |}.

(** Modelled from the spec: the sweep of "expired SessionScopeRecord
    rows". *)
Definition expired (r : Retention) (now : nat) (record : SessionScopeRecord) : bool :=
  issued_at record + session_lifetime r <? now.

Definition sweep_sessions (r : Retention) (now : nat) (st : State) : State :=
  {| scope_versions := scope_versions st;
     scope_change_events := scope_change_events st;
     next_event_id := next_event_id st;
     session_scope_records :=
       filter (fun entry => expired r now entry.2 = false)
         (session_scope_records st) |}.

(** Modelled from the spec: a pass of the BackgroundReconciler: it
    "defensively calls recompute" for each principal of a batch, "sweeps
    expired SessionScopeRecord rows" and garbage-collects events; a retry
    of an unprocessed event that succeeds is the delivery below. *)
Definition reconcile (store : SnapshotStore) (r : Retention) (now : nat)
    (batch : list key) (st : State) : State :=
  collect_garbage r now
    (sweep_sessions r now
       (fold_left (fun s k => recompute store now k s) batch st)).

(** Modelled from the spec: the inbound triggers and internal operations
    that change the persisted state. *)
Inductive Op :=
| RoleOrCapabilityChanged (store : SnapshotStore) (now : nat) (k : key)
| SessionIssued (store : SnapshotStore) (now : nat) (session_id : string) (k : key)
| SessionRefreshed (store : SnapshotStore) (now : nat) (session_id : string)
| Invalidate (session_id : string)
| Delivered (event_id : nat)
| CollectGarbage (r : Retention) (now : nat)
| Reconcile (store : SnapshotStore) (r : Retention) (now : nat)
    (batch : list key).

Definition step (o : Op) (st : State) : State :=
  match o with
  | RoleOrCapabilityChanged store now k => recompute store now k st
  | SessionIssued store now sid k => session_issued store now sid k st
  | SessionRefreshed store now sid => session_refreshed store now sid st
  | Invalidate sid => invalidate sid st
  | Delivered eid => mark_processed eid st
  | CollectGarbage r now => collect_garbage r now st
  | Reconcile store r now batch => reconcile store r now batch st
  end.


Definition run (ops : list Op) (st : State) : State :=
  fold_left (fun s o => step o s) ops st.

End Manager.

(** Modelled from the spec: the remaining grace of a stale session: none
    under hard invalidation, else what is left of [grace_period] counted
    from the row's last update. *)
Definition grace_left (cfg : Config) (now : nat) (row : ScopeVersion) : nat :=
  if soft_grace cfg then (last_updated row + grace_period cfg) - now else 0.

(** Modelled from the spec: validate, "fetch the record and the current
    version; if scope_version_at_issue < current, the session is STALE".
    A session without a record is INVALID; a failed version lookup is
    stale unless [fail_open_on_lookup_error]. *)
Definition validate (cfg : Config) (now : nat) (session_id : string)
    (st : State) : Validation :=
  match session_scope_records st !! session_id with
  | None => INVALID
  | Some r =>
      match scope_versions st !! (session_user_id r, session_tenant_id r) with
      | None => if fail_open_on_lookup_error cfg then OK else STALE 0
      | Some row =>
          if scope_version_at_issue r <? version row
          then STALE (grace_left cfg now row)
          else OK
      end
  end.





End Scope.

(** ** Sample scopes: scenario 1 of the specification *)

(** A checksum for the samples: the two sets written out in a fixed order. *)
Definition sample_digest (caps rls : gset string) : string :=
  String.append (String.concat "," (elements caps))
    (String.append "|" (String.concat "," (elements rls))).

(** User U holds ["chat.completions"] in tenant T. *)
Definition store_before : Scope.SnapshotStore :=
  {| Scope.assigned_roles := fun _ => ∅;
     Scope.direct_grants := fun _ => {["chat.completions"]};
     Scope.role_capabilities := fun _ => ∅ |}.

(** An admin grants U a role that carries ["embeddings"]. *)
Definition store_after : Scope.SnapshotStore :=
  {| Scope.assigned_roles := fun _ => {["embedder"]};
     Scope.direct_grants := fun _ => {["chat.completions"]};
     Scope.role_capabilities :=
       fun r => if String.eqb r "embedder" then {["embeddings"]} else ∅ |}.

Definition principal_UT : Scope.key := ("U", Some "T").

(** The states of scenario 1: the baseline row, a session issued against
    it, and the row after the role is granted. *)
Definition state_v1 : Scope.State :=
  Scope.recompute sample_digest store_before 10 principal_UT Scope.init.

Definition state_session : Scope.State :=
  Scope.session_issued sample_digest store_before 11 "s1" principal_UT state_v1.

Definition state_v2 : Scope.State :=
  Scope.recompute sample_digest store_after 20 principal_UT state_session.

Definition row_v1 : Scope.ScopeVersion :=
  {| Scope.version := 1;
     Scope.capabilities := Scope.effective_capabilities store_before principal_UT;
     Scope.roles := Scope.assigned_roles store_before principal_UT;
     Scope.checksum :=
       sample_digest (Scope.effective_capabilities store_before principal_UT)
         (Scope.assigned_roles store_before principal_UT);
     Scope.last_updated := 10 |}.

Definition row_v2 : Scope.ScopeVersion :=
  {| Scope.version := 2;
     Scope.capabilities := Scope.effective_capabilities store_after principal_UT;
     Scope.roles := Scope.assigned_roles store_after principal_UT;
     Scope.checksum :=
       sample_digest (Scope.effective_capabilities store_after principal_UT)
         (Scope.assigned_roles store_after principal_UT);
     Scope.last_updated := 20 |}.

Definition session_s1 : Scope.SessionScopeRecord :=
  {| Scope.session_user_id := "U"; Scope.session_tenant_id := Some "T";
     Scope.scope_version_at_issue := 1;
     Scope.issued_at := 11; Scope.last_validated_at := 11 |}.

Definition sample_config : Scope.Config :=
  {| Scope.grace_period := 300; Scope.soft_grace := true;
     Scope.fail_open_on_lookup_error := false |}.




(** ** The other rules of the policies *)

Module RegoLib.

(** [not t] succeeds when [t] is undefined or [false]. *)
Definition not_ (v : value) : bool := negb (holds v).

(** [x in [e1, ..., en]] against an array written out in the rule. *)
Definition in_ (x : value) (elems : list json) : value :=
  match x with
  | None => None
  | Some a => Some (JBool (existsb (fun e => bool_decide (a = e)) elems))
  end.

(** The text of [fmt] with each [%s] replaced by the next operand; [None]
    when verbs and operands do not pair up or another verb occurs.  A
    string operand is inserted as it is; [render] writes the others. *)
Fixpoint format (render : json -> string) (fmt : string) (args : list json)
    : option string :=
  match fmt with
  | EmptyString => match args with [] => Some EmptyString | _ => None end
  | String c rest =>
      if Ascii.eqb c "%" then
        match rest, args with
        | String v rest', a :: args' =>
            if Ascii.eqb v "s" then
              match format render rest' args' with
              | Some out =>
                  Some (String.append
                          match a with JStr s => s | _ => render a end out)
              | None => None
              end
            else None
        | _, _ => None
        end
      else
        match format render rest args with
        | Some out => Some (String c out)
        | None => None
        end
  end.

(** All operands defined, as a list. *)
Fixpoint operands (args : list value) : option (list json) :=
  match args with
  | [] => Some []
  | None :: _ => None
  | Some a :: rest =>
      match operands rest with
      | Some l => Some (a :: l)
      | None => None
      end
  end.

(** [sprintf(fmt, [a1, ..., an])]: undefined when an operand is; the
    policies only write calls whose verbs and operands pair up, any other
    call renders through [mismatch]. *)
Definition sprintf (render : json -> string)
    (mismatch : string -> list json -> string)
    (fmt : string) (args : list value) : value :=
  match operands args with
  | None => None
  | Some l =>
      Some (JStr match format render fmt l with
                 | Some out => out
                 | None => mismatch fmt l
                 end)
  end.

(** [a < b]: numbers compare as numbers; [order] is the comparison of
    values of other types. *)
Definition lt (order : json -> json -> bool) (a b : value) : bool :=
  match a, b with
  | Some (JNum x), Some (JNum y) => x <? y
  | Some x, Some y => order x y
  | _, _ => false
  end.

End RegoLib.

Import RegoLib.

(** *** [package authz]: resources and user interface *)

Module authz_access.

Section Rules.
Variable render : json -> string.
Variable mismatch : string -> list json -> string.
Variable input : json.

Let capabilities : value := dot (dot (Some input) "user") "capabilities".
Let resource : value := dot (Some input) "resource".
Let action : value := dot (Some input) "action".
Let ui_component : value := dot (Some input) "ui_component".

(** [required_cap := sprintf("%s:%s", [input.resource, input.action])] *)
Definition resource_capability : value :=
  sprintf render mismatch "%s:%s" [resource; action].

Definition resource_access_exact : bool :=
  holds resource
  && holds action
  && (let required_cap := resource_capability in
      some_in capabilities (fun c => eq (Some c) required_cap)).

Definition resource_access_admin : bool :=
  holds resource
  && holds action
  && some_in capabilities (fun c => eq (Some c) (Some (JStr "*"))).

(** [resource_access] has no default: [true] or undefined. *)
Definition resource_access : value :=
  partial_rule [resource_access_exact; resource_access_admin].

(** [required_cap := sprintf("ui:%s", [input.ui_component])] *)
Definition ui_capability : value :=
  sprintf render mismatch "ui:%s" [ui_component].

Definition ui_visible_exact : bool :=
  holds ui_component
  && (let required_cap := ui_capability in
      some_in capabilities (fun c => eq (Some c) required_cap)).

Definition ui_visible_admin : bool :=
  holds ui_component
  && some_in capabilities (fun c => eq (Some c) (Some (JStr "*"))).

Definition ui_visible_all : bool :=
  holds ui_component
  && some_in capabilities (fun c => eq (Some c) (Some (JStr "ui:*"))).

Definition ui_visible : value :=
  partial_rule [ui_visible_exact; ui_visible_admin; ui_visible_all].
End Rules.

End authz_access.

(** *** [package tenant]: membership and administration *)

Module tenant_admin.

Section Rules.
Variable input : json.

Let capabilities : value := dot (dot (Some input) "user") "capabilities".
Let user_id : value := dot (Some input) "user_id".
Let tenant_id : value := dot (Some input) "tenant_id".
Let membership : value :=
  ref (dot (dot (Some input) "user") "tenant_memberships") tenant_id.

(** Some global grant is the string [g]. *)
Definition holds_grant (g : string) : bool :=
  some_in capabilities (fun c => eq (Some c) (Some (JStr g))).

Definition allow_member : bool :=
  holds user_id
  && holds tenant_id
  && holds membership
  && eq (dot membership "is_active") (Some (JBool true)).

(** [default allow := false] and the three [allow if] rules. *)
Definition allow : bool :=
  default_false [allow_member; holds_grant "*"; holds_grant "tenant:*"].

Definition create_tenant : value :=
  partial_rule [holds_grant "tenant:create"; holds_grant "*"].

Definition manage_tenant_role : bool :=
  holds tenant_id
  && holds membership
  && eq (dot membership "role") (Some (JStr "admin")).

Definition manage_tenant : value :=
  partial_rule [manage_tenant_role; holds_grant "tenant:manage"; holds_grant "*"].

Definition invite_users_role : bool :=
  holds tenant_id
  && holds membership
  && holds (in_ (dot membership "role") [JStr "admin"; JStr "power_user"]).

Definition invite_users : value :=
  partial_rule [invite_users_role; holds_grant "tenant:invite_users";
                holds_grant "*"].
End Rules.

End tenant_admin.

(** *** [package api]: the rate limit *)

Module api.

Section Rules.
Variable order : json -> json -> bool.
Variable input : json.

Let rate_limit : value := dot (Some input) "rate_limit".

Definition rate_limit_ok_below : bool :=
  holds rate_limit
  && lt order (dot rate_limit "current") (dot rate_limit "limit").

Definition rate_limit_ok_absent : bool := not_ rate_limit.

Definition rate_limit_ok : value :=
  partial_rule [rate_limit_ok_below; rate_limit_ok_absent].
End Rules.

End api.

(** A resource request: the user's global grants, the resource and the
    action, and the capability ["resource:action"] as the one required. *)
Definition resource_sample (caps : list string) (r a : string) : json :=
  JObj [("user", JObj [("capabilities", strs caps)]);
        ("resource", JStr r);
        ("action", JStr a);
        ("required_capability",
         JStr (String.append r (String.append ":" a)))].

(** A request to show the component [c]. *)
Definition ui_sample (caps : list string) (c : string) : json :=
  JObj [("user", JObj [("capabilities", strs caps)]);
        ("ui_component", JStr c);
        ("required_capability", JStr (String.append "ui:" c))].

(** Operands that are not strings print as ["?"] in the samples. *)
Definition sample_render (v : json) : string := "?".

Definition sample_mismatch (fmt : string) (args : list json) : string := "?".

(** A membership record with a role. *)
Definition role_doc (active : bool) (role : string) : json :=
  JObj [("is_active", JBool active); ("role", JStr role);
        ("capabilities", strs [])].

(** A tenant-package request, with or without [user_id]. *)
Definition tenant_request (caps : list string)
    (memberships : list (string * json)) (user : option string)
    (t requested_t : string) : json :=
  JObj ([("user", JObj [("capabilities", strs caps);
                        ("tenant_memberships", JObj memberships)]);
         ("tenant_id", JStr t);
         ("requested_tenant_id", JStr requested_t)]
        ++ match user with
           | Some u => [("user_id", JStr u)]
           | None => []
           end).

(** A request carrying a rate limit. *)
Definition rate_sample (rate_limit : json) : json :=
  JObj [("user", JObj [("capabilities", strs [])]);
        ("rate_limit", rate_limit)].

(** In the samples, values that are not both numbers are unordered. *)
Definition sample_order (a b : json) : bool := false.

(** ** The front end

    A JavaScript string is modelled by its sequence of characters. *)

Module JS.

Local Open Scope nat_scope.

(** The class [\d]. *)
Definition is_digit (c : ascii) : bool :=
  (48 <=? nat_of_ascii c) && (nat_of_ascii c <=? 57).

(** A class [[lo-hi]]. *)
Definition in_range (lo hi c : ascii) : bool :=
  (nat_of_ascii lo <=? nat_of_ascii c) && (nat_of_ascii c <=? nat_of_ascii hi).

(** [/^c1 c2 ... cn$/.test(s)] for character classes [c1 ... cn]: the
    string has exactly [n] characters and the i-th is in the i-th class. *)
Fixpoint test (classes : list (ascii -> bool)) (s : string) : bool :=
  match classes, s with
  | [], EmptyString => true
  | c :: classes', String a s' => c a && test classes' s'
  | _, _ => false
  end.

(** [s.replace(/\D/g, '')] *)
Fixpoint strip_non_digits (s : string) : string :=
  match s with
  | EmptyString => EmptyString
  | String a s' =>
      if is_digit a then String a (strip_non_digits s')
      else strip_non_digits s'
  end.

(** [s.slice(0, n)] *)
Definition slice_to (n : nat) (s : string) : string := String.substring 0 n s.

(** [s.slice(-1)] *)
Definition slice_last (s : string) : string :=
  String.substring (String.length s - 1) 1 s.

(** [s[i] || ''] *)
Definition char_or_empty (s : string) (i : nat) : string :=
  String.substring i 1 s.

(** [Array.from({ length }, (_, i) => s[i] || '')] *)
Definition slots_of (len : nat) (s : string) : list string :=
  map (char_or_empty s) (seq 0 len).

(** [xs.join('')] *)
Definition join (xs : list string) : string :=
  fold_right String.append EmptyString xs.

(** [!s] for a string: the empty string is falsy. *)
Definition is_empty (s : string) : bool :=
  match s with EmptyString => true | _ => false end.

(** [xs[i] = x] on an array: in range it replaces the element; beyond the
    end the array grows, the skipped elements being holes, which read and
    join like the empty string. *)
Definition assign (xs : list string) (i : nat) (x : string) : list string :=
  if i <? List.length xs then <[i := x]> xs
  else (xs ++ replicate (i - List.length xs) EmptyString ++ [x])%list.

(** [xs.findIndex(p)]; [None] is -1. *)
Fixpoint find_index (p : string -> bool) (xs : list string) : option nat :=
  match xs with
  | [] => None
  | x :: xs' => if p x then Some 0
                else match find_index p xs' with
                     | Some i => Some (S i)
                     | None => None
                     end
  end.

End JS.

(** *** [frontend/auth/progressiveFields.ts] *)

Module progressiveFields.

(** The profiling context; a list that is missing is [None]. *)
Record Context := {
  required_fields : option (list string);
  optional_fields : option (list string)
}.

(** [l.includes(x)]; on a missing list the call throws ([None]). *)
Definition includes (l : option (list string)) (x : string) : option bool :=
  match l with
  | None => None
  | Some xs => Some (existsb (String.eqb x) xs)
  end.

(** The callback of the filter: [||] reads [optional_fields] only when the
    field is not required. *)
Definition is_visible (context : Context) (field : string) : option bool :=
  match includes (required_fields context) field with
  | None => None
  | Some true => Some true
  | Some false => includes (optional_fields context) field
  end.

(** [order.filter(field => ...)]: the callback runs on each field in turn;
    the first call that throws ends the filter ([None]). *)
Fixpoint getVisibleFields (order : list string) (context : Context)
    : option (list string) :=
  match order with
  | [] => Some []
  | field :: rest =>
      match is_visible context field with
      | None => None
      | Some keep =>
          match getVisibleFields rest context with
          | None => None
          | Some fields => Some (if keep then field :: fields else fields)
          end
      end
  end.

End progressiveFields.

(** *** [frontend/src/components/organisms/LoginForm.tsx] *)

Module LoginForm.

Local Open Scope nat_scope.

(** The state hooks of the form. *)
Record State := {
  mobile : string;
  otp : string;
  mobileError : string
}.

Definition initial : State :=
  {| mobile := EmptyString; otp := EmptyString; mobileError := EmptyString |}.

(** A call of one of the callbacks the parent passed in. *)
Inductive Call :=
| onOTPRequest (mobile : string)
| onOTPVerify (otp : string).

(** [/^[6-9]\d{9}$/] *)
Definition indianMobileRegex : list (ascii -> bool) :=
  JS.in_range "6" "9" :: repeat JS.is_digit 9.

(** [validateMobile]: the verdict and the error message it sets. *)
Definition validateMobile (mobile : string) : bool * string :=
  if negb (JS.test indianMobileRegex mobile)
  then (false, "Please enter a valid Indian mobile number"%string)
  else (true, EmptyString).

Definition handleMobileSubmit (st : State) : State * list Call :=
  let (ok, message) := validateMobile (mobile st) in
  ({| mobile := mobile st; otp := otp st; mobileError := message |},
   if ok then [onOTPRequest (mobile st)] else []).

Definition handleOTPSubmit (st : State) : State * list Call :=
  (st, if String.length (otp st) =? 6 then [onOTPVerify (otp st)] else []).

(** What the user does: typing into the two inputs (the [onChange]
    handlers) and submitting the two forms. *)
Inductive Event :=
| MobileChange (value : string)
| OTPChange (value : string)
| MobileSubmit
| OTPSubmit.

Definition handle (e : Event) (st : State) : State * list Call :=
  match e with
  | MobileChange v =>
      ({| mobile := v; otp := otp st; mobileError := mobileError st |}, [])
  | OTPChange v =>
      ({| mobile := mobile st;
          otp := JS.slice_to 6 (JS.strip_non_digits v);
          mobileError := mobileError st |}, [])
  | MobileSubmit => handleMobileSubmit st
  | OTPSubmit => handleOTPSubmit st
  end.

(** The state after a sequence of events, and the calls made on the way. *)
Fixpoint run (events : list Event) (st : State) : State * list Call :=
  match events with
  | [] => (st, [])
  | e :: rest =>
      let (st', calls) := handle e st in
      let (st'', calls') := run rest st' in
      (st'', (calls ++ calls')%list)
  end.

End LoginForm.

(** A string of decimal digits. *)
Definition digits_only (s : string) : Prop :=
  Forall (fun c => JS.is_digit c = true) (list_ascii_of_string s).

(** The text field of the second form holds digits. *)
Definition otp_field_ok (st : LoginForm.State) : Prop :=
  digits_only (LoginForm.otp st).

(** *** [frontend/src/components/molecules/OTPInput.tsx] *)

Module OTPInput.

Local Open Scope nat_scope.

(** What a handler does besides setting the [digits] state. *)
Inductive Effect :=
| onChange (value : string)
| onComplete (value : string)
| focus (index : nat).

Section Component.
(** The [length] prop: the number of inputs. *)
Variable length : nat.

(** [Array.from({ length }, (_, i) => value[i] || '')], the state a
    [value] prop gives. *)
Definition digits_of (value : string) : list string := JS.slots_of length value.

Definition handleChange (digits : list string) (index : nat) (digit : string)
    : list string * list Effect :=
  let digit := if 1 <? String.length digit then JS.slice_last digit else digit in
  if negb (JS.is_empty digit) && negb (JS.test [JS.is_digit] digit)
  then (digits, [])
  else
    let newDigits := JS.assign digits index digit in
    let newValue := JS.join newDigits in
    (newDigits,
     ([onChange newValue]
      ++ (if negb (JS.is_empty digit) && (index + 1 <? length)
          then [focus (index + 1)] else [])
      ++ (if String.length newValue =? length
          then [onComplete newValue] else []))%list).

Definition handleKeyDown (digits : list string) (index : nat) (key : string)
    : list string * list Effect :=
  if String.eqb key "Backspace" then
    if JS.is_empty (nth index digits EmptyString) && (0 <? index)
    then (digits, [focus (index - 1)])
    else handleChange digits index EmptyString
  else if String.eqb key "ArrowLeft" && (0 <? index)
  then (digits, [focus (index - 1)])
  else if String.eqb key "ArrowRight" && (index + 1 <? length)
  then (digits, [focus (index + 1)])
  else if String.eqb key "Delete"
  then handleChange digits index EmptyString
  else (digits, []).

Definition handlePaste (digits : list string) (pastedData : string)
    : list string * list Effect :=
  let pastedDigits := JS.slice_to length (JS.strip_non_digits pastedData) in
  if negb (JS.is_empty pastedDigits) then
    let newDigits := JS.slots_of length pastedDigits in
    let newValue := JS.join newDigits in
    let focusIndex := match JS.find_index JS.is_empty newDigits with
                      | Some i => i
                      | None => length - 1
                      end in
    (newDigits,
     ([onChange newValue; focus focusIndex]
      ++ (if String.length newValue =? length
          then [onComplete newValue] else []))%list)
  else (digits, []).

(** What happens to the component: input into the box [index], a key
    pressed in it, a paste, or a new [value] prop. *)
Inductive Event :=
| Change (index : nat) (digit : string)
| KeyDown (index : nat) (key : string)
| Paste (pastedData : string)
| ValueProp (value : string).

Definition handle (e : Event) (digits : list string)
    : list string * list Effect :=
  match e with
  | Change index digit => handleChange digits index digit
  | KeyDown index key => handleKeyDown digits index key
  | Paste pastedData => handlePaste digits pastedData
  | ValueProp value => (digits_of value, [])
  end.

(** The boxes are rendered for the indices below [length], so an event
    names one of them. *)
Definition in_range (e : Event) : Prop :=
  match e with
  | Change index _ | KeyDown index _ => index < length
  | Paste _ | ValueProp _ => True
  end.

Fixpoint run (events : list Event) (digits : list string)
    : list string * list Effect :=
  match events with
  | [] => (digits, [])
  | e :: rest =>
      let (digits', effects) := handle e digits in
      let (digits'', effects') := run rest digits' in
      (digits'', (effects ++ effects')%list)
  end.

End Component.

(** A box holds nothing or one decimal digit. *)
Definition box_ok (d : string) : Prop :=
  d = EmptyString \/ exists c, d = String c EmptyString /\ JS.is_digit c = true.

(** There are [length] boxes, each holding nothing or one digit. *)
Definition boxes_ok (length : nat) (digits : list string) : Prop :=
  List.length digits = length /\ Forall box_ok digits.

(** An event names a box that is rendered, and the parent passes digits as
    the [value] prop. *)
Definition event_ok (length : nat) (e : Event) : Prop :=
  in_range length e
  /\ match e with
     | ValueProp value => digits_only value
     | _ => True
     end.

(** The values reported are digits, a completed value has [length] of
    them, and the focus goes to a box that is rendered. *)
Definition effect_ok (length : nat) (e : Effect) : Prop :=
  match e with
  | onChange value => digits_only value
  | onComplete value => digits_only value /\ String.length value = length
  | focus index => index < length
  end.

End OTPInput.

(** *** [frontend/src/utils/cn.ts] *)

Module cn_utils.

(** A class value.  A number is given by what [cn] reads of it: whether it
    is falsy (0 or NaN) and the text [String] gives it; the values of an
    object are arbitrary, [cn] reads whether they are truthy; the entries
    of an object are in the order of [Object.entries]. *)
#[warnings="-register-all"]
Inductive ClassValue :=
| VString (s : string)
| VNumber (falsy : bool) (text : string)
| VBoolean (b : bool)
| VUndefined
| VNull
| VArray (inputs : list ClassValue)
| VObject (entries : list (string * ClassValue)).

(** [!!v] *)
Definition truthy (v : ClassValue) : bool :=
  match v with
  | VString s => negb (JS.is_empty s)
  | VNumber falsy _ => negb falsy
  | VBoolean b => b
  | VUndefined | VNull => false
  | VArray _ | VObject _ => true
  end.

(** [classes.join(' ')] *)
Definition join (classes : list string) : string := String.concat " " classes.

(** What one input pushes onto [classes]; for an array, the recursive call
    [cn(...input)], pushed when it is not empty. *)
Fixpoint pushed (input : ClassValue) : list string :=
  if negb (truthy input) then []
  else
    match input with
    | VString s => [s]
    | VNumber _ text => [text]
    | VArray inputs =>
        let nested := join (flat_map pushed inputs) in
        if JS.is_empty nested then [] else [nested]
    | VObject entries =>
        flat_map (fun entry => if truthy (snd entry) then [fst entry] else [])
          entries
    | _ => []
    end.

(** [cn(...inputs)] *)
Definition cn (inputs : list ClassValue) : string :=
  join (flat_map pushed inputs).

End cn_utils.
(** * Properties of the policies *)

(** ** Facts about the string built-ins *)

Section StringFacts.
Local Open Scope nat_scope.

Lemma append_cons (a : ascii) (w s : string) :
  String.append (String a w) s = String a (String.append w s).
Proof. reflexivity. Qed.

Lemma append_nil (s : string) : String.append EmptyString s = s.
Proof. reflexivity. Qed.

Lemma prefix_is_prefix (w r : string) :
  String.prefix w r = true <-> is_prefix w r.
Proof.
  unfold is_prefix. revert r. induction w as [|a w IH]; intros r; simpl.
  - split; [intros _; exists r; reflexivity | destruct r; reflexivity].
  - destruct r as [|b r]; simpl.
    + split; [discriminate | intros [rest H]; discriminate].
    + destruct (ascii_dec a b) as [->|Hab].
      * rewrite IH. split; intros [rest H]; exists rest.
        -- rewrite append_cons. congruence.
        -- rewrite append_cons in H. congruence.
      * split; [discriminate |].
        intros [rest H]. rewrite append_cons in H. congruence.
Qed.

Lemma has_suffix_unfold (s suffix : string) :
  has_suffix s suffix
  = if String.eqb s suffix then true
    else match s with
         | EmptyString => false
         | String _ s' => has_suffix s' suffix
         end.
Proof. destruct s; reflexivity. Qed.

Lemma has_suffix_app (w suffix : string) :
  has_suffix (String.append w suffix) suffix = true.
Proof.
  induction w as [|a w IH]; rewrite has_suffix_unfold.
  - rewrite append_nil, String.eqb_refl. reflexivity.
  - rewrite append_cons, IH. destruct (String.eqb _ _); reflexivity.
Qed.

Lemma has_suffix_inv (s suffix : string) :
  has_suffix s suffix = true -> exists w, s = String.append w suffix.
Proof.
  induction s as [|a s IH]; rewrite has_suffix_unfold.
  - destruct (String.eqb_spec EmptyString suffix) as [<-|]; [|discriminate].
    exists EmptyString. reflexivity.
  - destruct (String.eqb_spec (String a s) suffix) as [<-|_].
    + exists EmptyString. reflexivity.
    + intros H. destruct (IH H) as [w ->]. exists (String a w). reflexivity.
Qed.

Lemma length_append (w suffix : string) :
  String.length (String.append w suffix)
  = String.length w + String.length suffix.
Proof.
  induction w as [|a w IH]; [reflexivity|].
  rewrite append_cons. simpl. congruence.
Qed.

Lemma substring_drop_suffix (w suffix : string) :
  String.substring 0 (String.length w) (String.append w suffix) = w.
Proof.
  induction w as [|a w IH].
  - rewrite append_nil. destruct suffix; reflexivity.
  - rewrite append_cons. simpl. rewrite IH. reflexivity.
Qed.
End StringFacts.

(** ** Rule bodies as propositions *)

Lemma some_in_true (v : value) (body : json -> bool) :
  some_in v body = true <-> exists c, In c (iter v) /\ body c = true.
Proof. unfold some_in. apply existsb_exists. Qed.

Lemma eq_true (a b : value) :
  Rego.eq a b = true <-> exists x, a = Some x /\ b = Some x.
Proof.
  destruct a as [x|], b as [y|]; simpl.
  - rewrite bool_decide_eq_true. split.
    + intros ->. eauto.
    + intros [z [H1 H2]]. congruence.
  - split; [discriminate | intros [z [_ H]]; discriminate].
  - split; [discriminate | intros [z [H _]]; discriminate].
  - split; [discriminate | intros [z [H _]]; discriminate].
Qed.

Lemma eq_some_true (c : json) (b : value) :
  Rego.eq (Some c) b = true <-> b = Some c.
Proof.
  rewrite eq_true. split.
  - intros [x [H1 H2]]. congruence.
  - intros ->. eauto.
Qed.

Lemma default_false_true (bs : list bool) :
  default_false bs = true <-> In true bs.
Proof.
  unfold default_false. rewrite existsb_exists. split.
  - intros [b [Hin Hb]]. unfold id in Hb. congruence.
  - intros Hin. exists true. auto.
Qed.

(** The prefix the pattern rule computes for a grant [w*] is [w]. *)
Lemma pattern_prefix (w : string) :
  let capability := Some (JStr (String.append w "*")) in
  substring capability (Some (JNum 0))
    (minus (count capability) (Some (JNum 1)))
  = Some (JStr w).
Proof.
  simpl. rewrite length_append. simpl String.length.
  replace (Z.of_nat (String.length w + 1) - 1) with (Z.of_nat (String.length w))
    by lia.
  destruct (Z.ltb_spec (Z.of_nat (String.length w)) 0) as [Hneg|_]; [lia|].
  rewrite Nat2Z.id. change (Z.to_nat 0) with 0%nat.
  rewrite substring_drop_suffix. reflexivity.
Qed.

Lemma wildcard_body_true (input capability : json) :
  authz.wildcard_body input capability = true
  <-> prefix_wildcard capability (requested input).
Proof.
  unfold authz.wildcard_body, prefix_wildcard. fold (requested input).
  split.
  - intros H. apply andb_prop in H as [Hend Hstart].
    destruct capability as [| | |s| |]; try discriminate Hend.
    simpl in Hend. destruct (has_suffix s "*") eqn:Hs; [|discriminate].
    apply has_suffix_inv in Hs as [w ->].
    rewrite pattern_prefix in Hstart.
    destruct (requested input) as [[| | |r| |]|]; try discriminate Hstart.
    simpl in Hstart. destruct (String.prefix w r) eqn:Hp; [|discriminate].
    exists w, r. repeat split. apply prefix_is_prefix, Hp.
  - intros [w [r [-> [-> Hp]]]].
    rewrite pattern_prefix. simpl.
    rewrite has_suffix_app. apply prefix_is_prefix in Hp. rewrite Hp.
    reflexivity.
Qed.

(** The first three rules together: some global grant matches. *)
Lemma global_rules_true (input : json) :
  authz.allow_admin input = true
  \/ authz.allow_exact input = true
  \/ authz.allow_pattern input = true
  <-> global_grant_matches input.
Proof.
  unfold authz.allow_admin, authz.allow_exact, authz.allow_pattern,
    global_grant_matches.
  fold (requested input). rewrite !some_in_true. fold (global_grants input).
  split.
  - intros [[c [Hin H]]|[[c [Hin H]]|[c [Hin H]]]]; exists c; split; auto.
    + right; left. apply eq_some_true in H. congruence.
    + left. apply eq_some_true in H. exact H.
    + right; right. apply wildcard_body_true, H.
  - intros [g [Hin [H|[H|H]]]].
    + right; left. exists g. split; [exact Hin|]. apply eq_some_true, H.
    + left. exists g. split; [exact Hin|]. apply eq_some_true.
      unfold bare_wildcard in H. congruence.
    + right; right. exists g. split; [exact Hin|].
      apply wildcard_body_true, H.
Qed.

(** The guard of the tenant rules holds exactly for an active membership:
    a membership with an [is_active] member is an object, and the
    [tenant_id] that names it is a string or a number, so the two
    existence statements of the guard follow from the third. *)
Lemma tenant_guard_true (input : json) :
  authz.tenant_guard input = true <-> membership_active input.
Proof.
  unfold authz.tenant_guard, membership_active.
  fold (tenant_membership input).
  rewrite !andb_true_iff, eq_true. split.
  - intros [[Ht _] [x [Hx Hx']]]. split.
    + destruct (dot (Some input) "tenant_id"); [eauto | discriminate].
    + congruence.
  - intros [_ Hact]. split; [split|].
    + unfold tenant_membership in Hact.
      destruct (dot (Some input) "tenant_id") as [[| | | | |]|];
        try reflexivity;
        destruct (dot (dot (Some input) "user") "tenant_memberships")
          as [[| | | | |]|]; discriminate Hact.
    + destruct (tenant_membership input) as [[| | | | |]|];
        try reflexivity; discriminate Hact.
    + eauto.
Qed.

Lemma tenant_rules_true (input : json) :
  authz.allow_tenant_exact input = true
  \/ authz.allow_tenant_admin input = true
  <-> membership_active input
      /\ exists g, In g (tenant_grants input)
                   /\ (exact_match g (requested input) \/ bare_wildcard g).
Proof.
  unfold authz.allow_tenant_exact, authz.allow_tenant_admin.
  fold (tenant_membership input). fold (requested input).
  rewrite !andb_true_iff, !some_in_true, tenant_guard_true.
  fold (tenant_grants input). split.
  - intros [[Hact [c [Hin H]]]|[Hact [c [Hin H]]]];
      (split; [exact Hact|]); exists c; (split; [exact Hin|]);
      apply eq_some_true in H.
    + left. exact H.
    + right. unfold bare_wildcard. congruence.
  - intros [Hact [g [Hin [H|H]]]].
    + left. split; [exact Hact|]. exists g. split; [exact Hin|].
      apply eq_some_true, H.
    + right. split; [exact Hact|]. exists g. split; [exact Hin|].
      apply eq_some_true. unfold bare_wildcard in H. congruence.
Qed.

Lemma allow_rules (input : json) :
  authz.allow input = true
  <-> (authz.allow_admin input = true
       \/ authz.allow_exact input = true
       \/ authz.allow_pattern input = true)
      \/ (authz.allow_tenant_exact input = true
          \/ authz.allow_tenant_admin input = true).
Proof.
  unfold authz.allow. rewrite default_false_true. simpl. intuition congruence.
Qed.

Lemma allow_true (input : json) :
  authz.allow input = true <-> grant_matches input.
Proof.
  unfold grant_matches.
  rewrite allow_rules, global_rules_true, tenant_rules_true. reflexivity.
Qed.

Lemma allow_false (input : json) :
  authz.allow input = false <-> ~ grant_matches input.
Proof.
  rewrite <- allow_true. destruct (authz.allow input); split; intros H;
    try reflexivity; try discriminate; try (intros H'; discriminate).
  exfalso. apply H. reflexivity.
Qed.

Example chat_stream :
  authz.allow (sample ["chat.*"] "chat.completions.stream") = true.
Proof. reflexivity. Qed.

Example embeddings_denied :
  authz.allow (sample ["chat.*"] "embeddings.create") = false.
Proof. reflexivity. Qed.

Example tenant_exact_allowed :
  authz.allow (tenant_sample [] [("t1", membership_doc true ["chat.completions"])]
                 "t1" "chat.completions") = true.
Proof. reflexivity. Qed.

Example tenant_prefix_not_expanded :
  authz.allow (tenant_sample [] [("t1", membership_doc true ["chat.*"])]
                 "t1" "chat.completions") = false.
Proof. reflexivity. Qed.

Example suspended_denied :
  authz.allow (tenant_sample [] [("t1", membership_doc false ["chat.completions"])]
                 "t1" "chat.completions") = false.
Proof. reflexivity. Qed.

(** ** The allow decision *)

(** C1, as stated, fails: an active membership holding the tenant-scoped
    grant ["chat.*"] has a grant that matches ["chat.completions"] by
    wildcard, yet the evaluator denies, because the tenant rules compare a
    grant with the request and with ["*"] only. *)
Lemma tenant_prefix_wildcard_denied :
  let input := tenant_sample [] [("t1", membership_doc true ["chat.*"])]
                 "t1" "chat.completions" in
  ~ (authz.allow input = true <-> stated_grant_matches input).
Proof.
  intros input [_ H].
  assert (Hdeny : authz.allow input = false) by reflexivity.
  rewrite H in Hdeny; [discriminate|].
  right. split.
  - split; [eexists; reflexivity | reflexivity].
  - exists (JStr "chat.*"). split; [left; reflexivity|].
    right. right. exists "chat.", "chat.completions".
    split; [reflexivity|]. split; [reflexivity|].
    exists "completions". reflexivity.
Qed.

(** C1 (amended): allow is true if and only if some grant matches: a global
    grant equal to the request, the global bare wildcard, a global grant
    ending in the marker whose literal prefix is a prefix of the request,
    or, for a supplied tenant_id with an active membership, a tenant-scoped
    grant equal to the request or equal to the bare wildcard; otherwise
    allow is false. *)
Theorem allow_iff_grant_matches (input : json) :
  (authz.allow input = true <-> grant_matches input)
  /\ (authz.allow input = false <-> ~ grant_matches input).
Proof. split; [apply allow_true | apply allow_false]. Qed.

(** C2: a global grant ending in the marker allows every request that has
    the grant's literal prefix, the bare wildcard allows every request, and
    ["chat.*"] allows ["chat.completions.stream"] but, alone, not
    ["embeddings.create"]. *)
Theorem wildcard_grant_allows :
  (forall (input : json) (w r : string),
      In (JStr (String.append w "*")) (global_grants input) ->
      requested input = Some (JStr r) ->
      is_prefix w r ->
      authz.allow input = true)
  /\ (forall input : json,
        In (JStr "*") (global_grants input) -> authz.allow input = true)
  /\ authz.allow (sample ["chat.*"] "chat.completions.stream") = true
  /\ authz.allow (sample ["chat.*"] "embeddings.create") = false.
Proof.
  split; [|split; [|split; reflexivity]].
  - intros input w r Hin Hreq Hpre. apply allow_true. left.
    exists (JStr (String.append w "*")). split; [exact Hin|].
    right; right. exists w, r. auto.
  - intros input Hin. apply allow_true. left.
    exists (JStr "*"). split; [exact Hin|]. right; left. reflexivity.
Qed.

Lemma wildcard_grant_allows_witness :
  let input := sample ["chat.*"] "chat.completions.stream" in
  In (JStr (String.append "chat." "*")) (global_grants input)
  /\ requested input = Some (JStr "chat.completions.stream")
  /\ is_prefix "chat." "chat.completions.stream"
  /\ authz.allow input = true.
Proof.
  intros input.
  assert (Hin : In (JStr (String.append "chat." "*")) (global_grants input))
    by (left; reflexivity).
  assert (Hreq : requested input = Some (JStr "chat.completions.stream"))
    by reflexivity.
  assert (Hpre : is_prefix "chat." "chat.completions.stream")
    by (exists "completions.stream"; reflexivity).
  split; [exact Hin|]. split; [exact Hreq|]. split; [exact Hpre|].
  exact (proj1 wildcard_grant_allows input "chat." _ Hin Hreq Hpre).
Defined.

(** C3: under a tenant_id whose membership has is_active false, the
    membership's grants confer nothing: when no global grant matches, the
    evaluator denies, also when the suspended membership lists the
    request. *)
Theorem suspended_membership_denies (input : json) :
  dot (tenant_membership input) "is_active" = Some (JBool false) ->
  ~ global_grant_matches input ->
  authz.allow input = false.
Proof.
  intros Hoff Hglobal. apply allow_false. intros [H|[[_ Hact] _]].
  - exact (Hglobal H).
  - congruence.
Qed.

Lemma suspended_membership_denies_witness :
  let input := tenant_sample []
                 [("t1", membership_doc false ["chat.completions"])]
                 "t1" "chat.completions" in
  In (JStr "chat.completions") (tenant_grants input)
  /\ authz.allow input = false.
Proof.
  intros input. split; [left; reflexivity|].
  apply (suspended_membership_denies input); [reflexivity|].
  intros [g [Hin _]]. exact Hin.
Defined.

(** C8: a matching global grant allows whatever the tenant_id and whatever
    the memberships; a user suspended in the requested tenant is still
    allowed by a matching global grant. *)
Theorem global_grant_overrides_tenant (input : json) :
  global_grant_matches input -> authz.allow input = true.
Proof. intros H. apply allow_true. left. exact H. Qed.

Lemma global_grant_overrides_tenant_witness :
  let input := tenant_sample ["chat.*"]
                 [("t1", membership_doc false [])] "t1" "chat.completions" in
  dot (tenant_membership input) "is_active" = Some (JBool false)
  /\ authz.allow input = true.
Proof.
  intros input. split; [reflexivity|].
  apply (global_grant_overrides_tenant input).
  exists (JStr "chat.*"). split; [left; reflexivity|].
  right; right. exists "chat.", "chat.completions".
  split; [reflexivity|]. split; [reflexivity|].
  exists "completions". reflexivity.
Defined.

(** ** Wildcards compare characters, not segments *)

Lemma append_inj_l (s w w' : string) :
  String.append w s = String.append w' s -> w = w'.
Proof.
  revert w'. induction w as [|a w IH]; intros [|b w'] H.
  - reflexivity.
  - apply (f_equal String.length) in H.
    rewrite append_nil, append_cons in H. simpl in H.
    rewrite length_append in H. lia.
  - apply (f_equal String.length) in H.
    rewrite append_nil, append_cons in H. simpl in H.
    rewrite length_append in H. lia.
  - rewrite !append_cons in H. injection H as -> H.
    f_equal. apply IH, H.
Qed.

Lemma global_grants_sample (caps : list string) (req : string) :
  global_grants (sample caps req) = map JStr caps.
Proof. reflexivity. Qed.

Lemma requested_sample (caps : list string) (req : string) :
  requested (sample caps req) = Some (JStr req).
Proof. reflexivity. Qed.

Lemma sample_no_tenant (caps : list string) (req : string) :
  ~ membership_active (sample caps req).
Proof. intros [[t Ht] _]. discriminate Ht. Qed.

(** C9: the pattern rule matches a grant [w*] against exactly the requests
    that have [w] as a prefix of characters, whatever the segments: a user
    holding only [w*] is allowed exactly those requests; ["chat.c*"]
    allows ["chat.completions"]; ["chat.*"] does not match ["chat"]. *)
Theorem wildcard_is_raw_prefix :
  (forall (input : json) (w r : string),
      requested input = Some (JStr r) ->
      (authz.wildcard_body input (JStr (String.append w "*")) = true
       <-> is_prefix w r))
  /\ (forall w r : string,
        authz.allow (sample [String.append w "*"] r) = true <-> is_prefix w r)
  /\ authz.allow (sample ["chat.c*"] "chat.completions") = true
  /\ authz.wildcard_body (sample ["chat.*"] "chat") (JStr "chat.*") = false
  /\ authz.allow (sample ["chat.*"] "chat") = false.
Proof.
  assert (Hbody : forall (input : json) (w r : string),
             requested input = Some (JStr r) ->
             (authz.wildcard_body input (JStr (String.append w "*")) = true
              <-> is_prefix w r)).
  { intros input w r Hreq. rewrite wildcard_body_true. split.
    - intros [w' [r' [Hg [Hr Hp]]]].
      injection Hg as Hg. apply append_inj_l in Hg.
      rewrite Hreq in Hr. injection Hr as Hr. congruence.
    - intros Hp. exists w, r. auto. }
  split; [exact Hbody|]. split; [|repeat split].
  intros w r. rewrite allow_true. split.
  - intros [[g [Hin Hm]]|[Hact _]].
    + rewrite global_grants_sample in Hin. simpl in Hin.
      destruct Hin as [<-|[]]. rewrite requested_sample in Hm.
      destruct Hm as [Hm|[Hm|Hm]].
      * injection Hm as ->. exists "*"%string. reflexivity.
      * injection Hm as Hm.
        change "*"%string with (String.append EmptyString "*") in Hm at 2.
        apply append_inj_l in Hm. subst w. exists r. reflexivity.
      * destruct Hm as [w' [r' [Hg [Hr Hp]]]].
        injection Hg as Hg. apply append_inj_l in Hg.
        injection Hr as Hr. congruence.
    + destruct (sample_no_tenant _ _ Hact).
  - intros Hp. left. exists (JStr (String.append w "*")). split.
    + rewrite global_grants_sample. left. reflexivity.
    + right; right. exists w, r. rewrite requested_sample. auto.
Qed.

Lemma wildcard_is_raw_prefix_witness :
  let input := sample ["chat.c*"] "chat.completions" in
  requested input = Some (JStr "chat.completions")
  /\ authz.wildcard_body input (JStr (String.append "chat.c" "*")) = true.
Proof.
  intros input. split; [reflexivity|].
  apply (proj1 wildcard_is_raw_prefix input "chat.c" "chat.completions");
    [reflexivity|].
  exists "ompletions". reflexivity.
Defined.

(** ** [tenant.data_access] *)

Lemma partial_rule_true (bs : list bool) :
  partial_rule bs = Some (JBool true) <-> In true bs.
Proof.
  unfold partial_rule. rewrite <- default_false_true.
  unfold default_false. destruct (existsb id bs); split; congruence.
Qed.

Lemma partial_rule_cases (bs : list bool) :
  partial_rule bs = Some (JBool true) \/ partial_rule bs = None.
Proof. unfold partial_rule. destruct (existsb id bs); auto. Qed.

Lemma data_access_admin_true (input : json) :
  tenant.data_access_admin input = true <-> In (JStr "*") (global_grants input).
Proof.
  unfold tenant.data_access_admin. rewrite some_in_true.
  fold (global_grants input). split.
  - intros [c [Hin H]]. apply eq_some_true in H. congruence.
  - intros Hin. exists (JStr "*"). split; [exact Hin|].
    apply eq_some_true. reflexivity.
Qed.

Lemma data_access_same_tenant_true (input : json) :
  tenant.data_access_same_tenant input = true
  <-> (exists t, dot (Some input) "tenant_id" = Some t
                 /\ dot (Some input) "requested_tenant_id" = Some t)
      /\ dot (tenant_membership input) "is_active" = Some (JBool true).
Proof.
  unfold tenant.data_access_same_tenant. fold (tenant_membership input).
  rewrite !andb_true_iff, !eq_true. split.
  - intros [[_ [t [Ht Hr]]] [x [Hx Hx']]]. split; [eauto | congruence].
  - intros [[t [Ht Hr]] Hact].
    assert (Hguard : authz.tenant_guard input = true).
    { apply tenant_guard_true. split; [rewrite Ht; eauto | exact Hact]. }
    unfold authz.tenant_guard in Hguard.
    apply andb_prop in Hguard as [Hguard _].
    apply andb_prop in Hguard as [Hguard _].
    repeat split; eauto.
    rewrite Hr, <- Ht. exact Hguard.
Qed.

(** C10: for an input whose user does not hold the bare wildcard,
    [data_access] holds only (and exactly) when the requested tenant is the
    tenant of the context and the membership in it is active; across
    tenants it never holds. *)
Theorem data_access_tenant_isolation (input : json) :
  ~ In (JStr "*") (global_grants input) ->
  (tenant.data_access input = Some (JBool true)
   <-> (exists t, dot (Some input) "tenant_id" = Some t
                  /\ dot (Some input) "requested_tenant_id" = Some t)
       /\ dot (tenant_membership input) "is_active" = Some (JBool true))
  /\ (dot (Some input) "tenant_id" <> dot (Some input) "requested_tenant_id" ->
      tenant.data_access input = None).
Proof.
  intros Hnostar.
  assert (Hiff : tenant.data_access input = Some (JBool true)
     <-> (exists t, dot (Some input) "tenant_id" = Some t
                    /\ dot (Some input) "requested_tenant_id" = Some t)
         /\ dot (tenant_membership input) "is_active" = Some (JBool true)).
  { unfold tenant.data_access. rewrite partial_rule_true. split.
    - intros [H|[H|[]]].
      + apply data_access_same_tenant_true, H.
      + apply data_access_admin_true in H. contradiction.
    - intros H. left. apply data_access_same_tenant_true, H. }
  split; [exact Hiff|].
  intros Hcross.
  destruct (partial_rule_cases
              [tenant.data_access_same_tenant input;
               tenant.data_access_admin input]) as [Hda|Hda]; [|exact Hda].
  apply Hiff in Hda as [[t [Ht Hr]] _]. congruence.
Qed.

Lemma data_access_tenant_isolation_witness :
  let input := data_sample ["tenant:read"]
                 [("t1", membership_doc true []); ("t2", membership_doc true [])]
                 "t1" "t2" in
  ~ In (JStr "*") (global_grants input)
  /\ tenant.data_access input = None.
Proof.
  intros input.
  assert (Hnostar : ~ In (JStr "*") (global_grants input)).
  { intros [H|[]]. discriminate H. }
  split; [exact Hnostar|].
  apply (proj2 (data_access_tenant_isolation input Hnostar)).
  intros H. discriminate H.
Defined.

(** * Properties of the scope-version subsystem *)

Module ScopeFacts.

Import Scope.

Local Open Scope nat_scope.

Example scenario_1_versions :
  get_version (recompute sample_digest store_before 10 principal_UT init)
    principal_UT = Some 1
  /\ get_version
       (recompute sample_digest store_after 20 principal_UT
          (recompute sample_digest store_before 10 principal_UT init))
       principal_UT = Some 2.
Proof. split; vm_compute; reflexivity. Qed.

Section Facts.

Variable digest : gset string -> gset string -> string.

(** *** One call of recompute *)

Lemma recompute_row (store : SnapshotStore) (now : nat) (k : key) (st : State) :
  scope_versions (recompute digest store now k st) !! k
  = Some
      match scope_versions st !! k with
      | None =>
          {| version := 1; capabilities := effective_capabilities store k;
             roles := assigned_roles store k;
             checksum := digest (effective_capabilities store k)
                           (assigned_roles store k);
             last_updated := now |}
      | Some row =>
          if decide (checksum row = digest (effective_capabilities store k)
                                      (assigned_roles store k))
          then row
          else {| version := S (version row);
                  capabilities := effective_capabilities store k;
                  roles := assigned_roles store k;
                  checksum := digest (effective_capabilities store k)
                                (assigned_roles store k);
                  last_updated := now |}
      end.
Proof.
  unfold recompute. destruct (scope_versions st !! k) as [row|] eqn:Hrow.
  - destruct (decide _); simpl; [exact Hrow | apply lookup_insert_eq].
  - simpl. apply lookup_insert_eq.
Qed.

Lemma recompute_other (store : SnapshotStore) (now : nat) (k k' : key) (st : State) :
  k <> k' ->
  scope_versions (recompute digest store now k st) !! k'
  = scope_versions st !! k'.
Proof.
  intros Hne. unfold recompute.
  destruct (scope_versions st !! k) as [row|]; [destruct (decide _)|];
    simpl; try reflexivity; apply lookup_insert_ne, Hne.
Qed.

Lemma recompute_sessions (store : SnapshotStore) (now : nat) (k : key) (st : State) :
  session_scope_records (recompute digest store now k st)
  = session_scope_records st.
Proof.
  unfold recompute.
  destruct (scope_versions st !! k) as [row|]; [destruct (decide _)|];
    reflexivity.
Qed.

Lemma recompute_checksum (store : SnapshotStore) (now : nat) (k : key) (st : State) :
  checksum <$> scope_versions (recompute digest store now k st) !! k
  = Some (digest (effective_capabilities store k) (assigned_roles store k)).
Proof.
  rewrite recompute_row. simpl. f_equal.
  destruct (scope_versions st !! k) as [row|]; [|reflexivity].
  destruct (decide _) as [Heq|_]; [exact Heq | reflexivity].
Qed.

Lemma recompute_version_step (store : SnapshotStore) (now : nat) (k : key)
    (st : State) (row : ScopeVersion) :
  scope_versions st !! k = Some row ->
  get_version (recompute digest store now k st) k
  = Some (if decide (checksum row = digest (effective_capabilities store k)
                                      (assigned_roles store k))
          then version row else version row + 1).
Proof.
  intros Hrow. unfold get_version. rewrite recompute_row, Hrow. simpl.
  destruct (decide _); simpl; f_equal. lia.
Qed.

Lemma recompute_version_le (store : SnapshotStore) (now : nat) (k : key)
    (st : State) (v : nat) :
  get_version st k = Some v ->
  exists w, get_version (recompute digest store now k st) k = Some w /\ v <= w.
Proof.
  unfold get_version at 1. intros Hv.
  destruct (scope_versions st !! k) as [row|] eqn:Hrow; [|discriminate].
  injection Hv as <-. rewrite (recompute_version_step _ _ _ _ _ Hrow).
  eexists. split; [reflexivity|]. destruct (decide _); lia.
Qed.

(** *** Sequences of calls *)

Lemma recompute_all_app (before after : list (SnapshotStore * nat)) (k : key)
    (st : State) :
  recompute_all digest (before ++ after) k st
  = recompute_all digest after k (recompute_all digest before k st).
Proof. unfold recompute_all. apply fold_left_app. Qed.

Lemma recompute_all_version_le (calls : list (SnapshotStore * nat)) (k : key)
    (st : State) (v : nat) :
  get_version st k = Some v ->
  exists w, get_version (recompute_all digest calls k st) k = Some w /\ v <= w.
Proof.
  revert st v. induction calls as [|[store now] calls IH]; intros st v Hv.
  - exists v. split; [exact Hv | lia].
  - destruct (recompute_version_le store now k st v Hv) as [u [Hu Hvu]].
    destruct (IH _ _ Hu) as [w [Hw Huw]].
    exists w. split; [exact Hw | lia].
Qed.

(** C4: on a fixed (user_id, tenant_id), a recompute call leaves the stored
    version where it is when the newly computed checksum is the stored one
    and adds exactly 1 when it differs; over any sequence of calls the
    stored version never decreases, and it exists after the first call. *)
Theorem recompute_version_monotone :
  (forall (store : SnapshotStore) (now : nat) (k : key) (st : State)
          (row : ScopeVersion),
      scope_versions st !! k = Some row ->
      get_version (recompute digest store now k st) k
      = Some (if decide (checksum row
                         = digest (effective_capabilities store k)
                             (assigned_roles store k))
              then version row else version row + 1))
  /\ (forall (before after : list (SnapshotStore * nat)) (k : key)
             (st : State) (v w : nat),
        get_version (recompute_all digest before k st) k = Some v ->
        get_version (recompute_all digest (before ++ after) k st) k = Some w ->
        v <= w)
  /\ (forall (calls : list (SnapshotStore * nat)) (k : key) (st : State),
        calls <> [] ->
        is_Some (get_version (recompute_all digest calls k st) k)).
Proof.
  split; [|split].
  - intros store now k st row Hrow. apply recompute_version_step, Hrow.
  - intros before after k st v w Hv Hw.
    rewrite recompute_all_app in Hw.
    destruct (recompute_all_version_le after k _ v Hv) as [w' [Hw' Hle]].
    congruence.
  - intros [|[store now] calls] k st Hne; [congruence|].
    assert (Hfirst : exists v, get_version (recompute digest store now k st) k
                               = Some v).
    { unfold get_version. rewrite recompute_row. simpl. eauto. }
    destruct Hfirst as [v Hv].
    destruct (recompute_all_version_le calls k _ v Hv) as [w [Hw _]].
    exists w. exact Hw.
Qed.

(** C6: a second recompute on the same capability/role input changes
    nothing: the version is the one after the first call and no event is
    appended. *)
Theorem recompute_idempotent (store store' : SnapshotStore) (now now' : nat)
    (k : key) (st : State) :
  effective_capabilities store' k = effective_capabilities store k ->
  assigned_roles store' k = assigned_roles store k ->
  let st1 := recompute digest store now k st in
  let st2 := recompute digest store' now' k st1 in
  get_version st2 k = get_version st1 k
  /\ scope_change_events st2 = scope_change_events st1
  /\ st2 = st1.
Proof.
  intros Hcaps Hroles st1 st2.
  assert (Hsame : st2 = st1).
  { subst st2. unfold recompute at 1. rewrite Hcaps, Hroles.
    pose proof (recompute_checksum store now k st) as Hsum. fold st1 in Hsum.
    destruct (scope_versions st1 !! k) as [row|]; [|discriminate].
    injection Hsum as Hsum. destruct (decide _); [reflexivity | contradiction]. }
  rewrite Hsame. auto.
Qed.

(** *** The event stream *)
























End Facts.

(** C5: a session whose record captured version V is reported STALE when
    the version stored for its (user_id, tenant_id) is greater than V and
    OK when it is V. *)
Theorem validate_staleness (cfg : Config) (now : nat) (session_id : string)
    (st : State) (r : SessionScopeRecord) (row : ScopeVersion) :
  session_scope_records st !! session_id = Some r ->
  scope_versions st !! (session_user_id r, session_tenant_id r) = Some row ->
  (scope_version_at_issue r < version row ->
   validate cfg now session_id st = STALE (grace_left cfg now row))
  /\ (version row = scope_version_at_issue r ->
      validate cfg now session_id st = OK).
Proof.
  intros Hr Hrow. unfold validate. rewrite Hr, Hrow. split; intros Hv.
  - apply Nat.ltb_lt in Hv. rewrite Hv. reflexivity.
  - rewrite Hv, Nat.ltb_irrefl. reflexivity.
Qed.

(** *** Scenario 1 and 2 of the specification *)

Example scenario_rows :
  scope_versions state_v1 !! principal_UT = Some row_v1
  /\ scope_versions state_v2 !! principal_UT = Some row_v2
  /\ session_scope_records state_v2 !! "s1" = Some session_s1
  /\ (old_version <$> scope_change_events state_v2) = [1]
  /\ (new_version <$> scope_change_events state_v2) = [2]
  /\ (added_capabilities <$> scope_change_events state_v2) = [{["embeddings"]}].
Proof. repeat split; vm_compute; reflexivity. Qed.

Lemma recompute_version_monotone_witness :
  scope_versions state_v1 !! principal_UT = Some row_v1
  /\ get_version (recompute sample_digest store_after 20 principal_UT state_v1)
       principal_UT = Some 2
  /\ get_version (recompute sample_digest store_before 20 principal_UT state_v1)
       principal_UT = Some 1.
Proof.
  assert (Hrow : scope_versions state_v1 !! principal_UT = Some row_v1)
    by (vm_compute; reflexivity).
  split; [exact Hrow|]. split.
  - rewrite (proj1 (recompute_version_monotone sample_digest)
               store_after 20 principal_UT state_v1 row_v1 Hrow).
    vm_compute. reflexivity.
  - rewrite (proj1 (recompute_version_monotone sample_digest)
               store_before 20 principal_UT state_v1 row_v1 Hrow).
    vm_compute. reflexivity.
Defined.

Lemma recompute_idempotent_witness :
  let st1 := recompute sample_digest store_after 20 principal_UT state_session in
  let st2 := recompute sample_digest store_after 21 principal_UT st1 in
  get_version st2 principal_UT = Some 2
  /\ length (scope_change_events st2) = 1.
Proof.
  intros st1 st2.
  destruct (recompute_idempotent sample_digest store_after store_after 20 21
              principal_UT state_session eq_refl eq_refl) as [Hv [He _]].
  fold st1 in Hv, He. fold st2 in Hv, He.
  rewrite Hv, He. split; vm_compute; reflexivity.
Defined.

Lemma validate_staleness_witness :
  validate sample_config 25 "s1" state_v2 = STALE 295
  /\ validate sample_config 12 "s1" state_session = OK.
Proof.
  assert (Hs2 : session_scope_records state_v2 !! "s1" = Some session_s1)
    by (vm_compute; reflexivity).
  assert (Hr2 : scope_versions state_v2
                !! (session_user_id session_s1, session_tenant_id session_s1)
                = Some row_v2) by (vm_compute; reflexivity).
  assert (Hs1 : session_scope_records state_session !! "s1" = Some session_s1)
    by (vm_compute; reflexivity).
  assert (Hr1 : scope_versions state_session
                !! (session_user_id session_s1, session_tenant_id session_s1)
                = Some row_v1) by (vm_compute; reflexivity).
  split.
  - apply (proj1 (validate_staleness sample_config 25 "s1" state_v2
                    session_s1 row_v2 Hs2 Hr2)).
    simpl. lia.
  - apply (proj2 (validate_staleness sample_config 12 "s1" state_session
                    session_s1 row_v1 Hs1 Hr1)).
    reflexivity.
Defined.



End ScopeFacts.

(** * Properties of the other policy rules *)

Lemma holds_grant_true (input : json) (g : string) :
  tenant_admin.holds_grant input g = true <-> In (JStr g) (global_grants input).
Proof.
  unfold tenant_admin.holds_grant. rewrite some_in_true.
  fold (global_grants input). split.
  - intros [c [Hin H]]. apply eq_some_true in H. congruence.
  - intros Hin. exists (JStr g). split; [exact Hin|].
    apply eq_some_true. reflexivity.
Qed.

Lemma holds_some (v : value) : holds v = true -> exists x, v = Some x.
Proof. destruct v as [x|]; [eauto | discriminate]. Qed.

Lemma append_inj_r (w a b : string) :
  String.append w a = String.append w b -> a = b.
Proof.
  induction w as [|c w IH]; intros H.
  - exact H.
  - rewrite !append_cons in H. injection H as H. apply IH, H.
Qed.

Lemma append_empty_r (s : string) : String.append s EmptyString = s.
Proof.
  induction s as [|c s IH]; [reflexivity|].
  rewrite append_cons, IH. reflexivity.
Qed.

Lemma resource_capability_strings (render : json -> string)
    (mismatch : string -> list json -> string) (input : json) (r a : string) :
  dot (Some input) "resource" = Some (JStr r) ->
  dot (Some input) "action" = Some (JStr a) ->
  authz_access.resource_capability render mismatch input
  = Some (JStr (String.append r (String.append ":" a))).
Proof.
  intros Hr Ha. unfold authz_access.resource_capability. rewrite Hr, Ha.
  unfold sprintf. simpl. rewrite append_empty_r. reflexivity.
Qed.

(** X1: [resource_access] is never more permissive than [allow]: when the
    request's required capability is the ["resource:action"] string the
    rule computes, [resource_access] implies [allow].  The converse fails:
    the rule compares grants literally, so a user holding only the
    pattern ["r:*"] has [allow] for ["r:a"] but no [resource_access]. *)
Theorem resource_access_within_allow (render : json -> string)
    (mismatch : string -> list json -> string) :
  (forall input : json,
      requested input = authz_access.resource_capability render mismatch input ->
      authz_access.resource_access render mismatch input = Some (JBool true) ->
      authz.allow input = true)
  /\ (forall r a : string,
        a <> "*"%string ->
        let input := resource_sample [String.append r ":*"] r a in
        authz.allow input = true
        /\ authz_access.resource_access render mismatch input = None).
Proof.
  split.
  - intros input Hreq H. apply partial_rule_true in H.
    apply allow_true. left.
    destruct H as [H|[H|[]]].
    + unfold authz_access.resource_access_exact in H.
      apply andb_prop in H as [_ H]. apply some_in_true in H as [c [Hin H]].
      apply eq_some_true in H. exists c. split; [exact Hin|].
      left. unfold exact_match. congruence.
    + unfold authz_access.resource_access_admin in H.
      apply andb_prop in H as [_ H]. apply some_in_true in H as [c [Hin H]].
      apply eq_some_true in H. exists c. split; [exact Hin|].
      right; left. unfold bare_wildcard. congruence.
  - intros r a Ha input. split.
    + apply allow_true. left. exists (JStr (String.append r ":*")).
      split; [left; reflexivity|]. right; right.
      exists (String.append r ":"), (String.append r (String.append ":" a)).
      split; [|split; [reflexivity|]].
      * f_equal. clear. induction r as [|c r IH]; [reflexivity|].
        rewrite !append_cons. f_equal. exact IH.
      * exists a. clear. induction r as [|c r IH]; [reflexivity|].
        rewrite !append_cons. f_equal. exact IH.
    + destruct (partial_rule_cases
                  [authz_access.resource_access_exact render mismatch input;
                   authz_access.resource_access_admin input])
        as [H|H]; [|exact H].
      exfalso. apply partial_rule_true in H.
      destruct H as [H|[H|[]]]; apply andb_prop in H as [_ H];
        apply some_in_true in H as [c [Hin H]]; apply eq_some_true in H;
        destruct Hin as [<-|[]].
      * rewrite (resource_capability_strings render mismatch input r a
                   eq_refl eq_refl) in H.
        injection H as H. apply append_inj_r in H.
        apply (append_inj_r ":") in H. congruence.
      * injection H as H. apply (f_equal String.length) in H.
        rewrite length_append in H. simpl in H. lia.
Qed.

Lemma resource_access_within_allow_witness :
  let input := resource_sample ["documents:read"] "documents" "read" in
  authz_access.resource_access sample_render sample_mismatch input
  = Some (JBool true)
  /\ authz.allow input = true.
Proof.
  intros input.
  assert (H : authz_access.resource_access sample_render sample_mismatch input
              = Some (JBool true)) by reflexivity.
  split; [exact H|].
  exact (proj1 (resource_access_within_allow sample_render sample_mismatch)
           input eq_refl H).
Defined.

Lemma ui_capability_prefix (render : json -> string)
    (mismatch : string -> list json -> string) (input : json) :
  holds (dot (Some input) "ui_component") = true ->
  exists r, authz_access.ui_capability render mismatch input = Some (JStr r)
            /\ is_prefix "ui:" r.
Proof.
  intros H. apply holds_some in H as [x Hx].
  unfold authz_access.ui_capability. rewrite Hx. unfold sprintf. simpl.
  eexists. split; [reflexivity|]. eexists. reflexivity.
Qed.

(** X2: [ui_visible] is never more permissive than [allow] on the
    capability ["ui:<component>"] it computes; it is undefined without a
    [ui_component], whatever the grants; and it does not expand patterns
    other than the literal ["ui:*"]: a user holding only ["ui:w*"] has
    [allow] for a component that starts with [w] but no [ui_visible]. *)
Theorem ui_visible_within_allow (render : json -> string)
    (mismatch : string -> list json -> string) :
  (forall input : json,
      requested input = authz_access.ui_capability render mismatch input ->
      authz_access.ui_visible render mismatch input = Some (JBool true) ->
      authz.allow input = true)
  /\ (forall input : json,
        holds (dot (Some input) "ui_component") = false ->
        authz_access.ui_visible render mismatch input = None)
  /\ (forall w c : string,
        is_prefix w c -> w <> EmptyString -> c <> String.append w "*" ->
        let input := ui_sample [String.append "ui:" (String.append w "*")] c in
        authz.allow input = true
        /\ authz_access.ui_visible render mismatch input = None).
Proof.
  split; [|split].
  - intros input Hreq H. apply partial_rule_true in H.
    apply allow_true. left.
    destruct H as [H|[H|[H|[]]]]; apply andb_prop in H as [Hc H];
      apply some_in_true in H as [c [Hin H]]; apply eq_some_true in H;
      exists c; (split; [exact Hin|]).
    + left. unfold exact_match. congruence.
    + right; left. unfold bare_wildcard. congruence.
    + right; right.
      destruct (ui_capability_prefix render mismatch input Hc) as [r [Hr Hp]].
      exists "ui:"%string, r. injection H as <-.
      split; [reflexivity|]. split; [congruence|exact Hp].
  - intros input Hc. unfold authz_access.ui_visible,
      authz_access.ui_visible_exact, authz_access.ui_visible_admin,
      authz_access.ui_visible_all.
    rewrite Hc. reflexivity.
  - intros w c [rest ->] Hw Hc input. split.
    + apply allow_true. left.
      exists (JStr (String.append "ui:" (String.append w "*"))).
      split; [left; reflexivity|]. right; right.
      exists (String.append "ui:" w),
             (String.append "ui:" (String.append w rest)).
      split; [reflexivity|]. split; [reflexivity|].
      exists rest. reflexivity.
    + destruct (partial_rule_cases
                  [authz_access.ui_visible_exact render mismatch input;
                   authz_access.ui_visible_admin input;
                   authz_access.ui_visible_all input])
        as [H|H]; [|exact H].
      exfalso. apply partial_rule_true in H.
      destruct H as [H|[H|[H|[]]]]; apply andb_prop in H as [_ H];
        apply some_in_true in H as [g [Hin H]]; apply eq_some_true in H;
        destruct Hin as [<-|[]].
      * unfold authz_access.ui_capability, sprintf in H. simpl in H.
        rewrite append_empty_r in H.
        change (String.append "ui:" (String.append w "*"))
          with (String "u" (String "i" (String ":" (String.append w "*"))))
          in H.
        injection H as H. exact (Hc H).
      * discriminate H.
      * injection H as H. apply (f_equal String.length) in H.
        rewrite !length_append in H.
        destruct w; [congruence | simpl in H; lia].
Qed.

Lemma ui_visible_within_allow_witness :
  let input := ui_sample ["ui:*"] "dashboard" in
  authz_access.ui_visible sample_render sample_mismatch input
  = Some (JBool true)
  /\ authz.allow input = true
  /\ authz.allow (ui_sample ["ui:dash*"] "dashboard") = true
  /\ authz_access.ui_visible sample_render sample_mismatch
       (ui_sample ["ui:dash*"] "dashboard") = None.
Proof.
  intros input.
  assert (H : authz_access.ui_visible sample_render sample_mismatch input
              = Some (JBool true)) by reflexivity.
  split; [exact H|]. split.
  - exact (proj1 (ui_visible_within_allow sample_render sample_mismatch)
             input eq_refl H).
  - apply (proj2 (proj2 (ui_visible_within_allow sample_render sample_mismatch))
             "dash" "dashboard").
    + exists "board". reflexivity.
    + discriminate.
    + discriminate.
Defined.

(** ** [package tenant] *)

(** A defined member of the membership named by [tenant_id] makes the two
    existence statements of the tenant rules succeed. *)
Lemma membership_member_guard (input : json) (name : string) (x : json) :
  dot (tenant_membership input) name = Some x ->
  holds (dot (Some input) "tenant_id") = true
  /\ holds (tenant_membership input) = true.
Proof.
  intros Hx. split.
  - unfold tenant_membership in Hx.
    destruct (dot (Some input) "tenant_id") as [[| | | | |]|];
      try reflexivity;
      destruct (dot (dot (Some input) "user") "tenant_memberships")
        as [[| | | | |]|]; discriminate Hx.
  - destruct (tenant_membership input) as [[| | | | |]|];
      try reflexivity; discriminate Hx.
Qed.

Lemma manage_tenant_role_true (input : json) :
  tenant_admin.manage_tenant_role input = true
  <-> dot (tenant_membership input) "role" = Some (JStr "admin").
Proof.
  unfold tenant_admin.manage_tenant_role. fold (tenant_membership input).
  rewrite !andb_true_iff, eq_true. split.
  - intros [_ [x [Hx Hx']]]. congruence.
  - intros H. destruct (membership_member_guard input "role" _ H) as [Ht Hm].
    repeat split; eauto.
Qed.

Lemma invite_users_role_true (input : json) :
  tenant_admin.invite_users_role input = true
  <-> dot (tenant_membership input) "role" = Some (JStr "admin")
      \/ dot (tenant_membership input) "role" = Some (JStr "power_user").
Proof.
  unfold tenant_admin.invite_users_role. fold (tenant_membership input).
  rewrite !andb_true_iff. split.
  - intros [_ H].
    destruct (dot (tenant_membership input) "role") as [x|]; [|discriminate].
    simpl in H. destruct (bool_decide (x = JStr "admin")) eqn:Ha.
    + apply bool_decide_eq_true in Ha. left. congruence.
    + destruct (bool_decide (x = JStr "power_user")) eqn:Hp; [|discriminate].
      apply bool_decide_eq_true in Hp. right. congruence.
  - intros H.
    assert (Hx : exists x, dot (tenant_membership input) "role" = Some x)
      by (destruct H; eauto).
    destruct Hx as [x Hx].
    destruct (membership_member_guard input "role" _ Hx) as [Ht Hm].
    split; [split; assumption|].
    destruct H as [H|H]; rewrite H; reflexivity.
Qed.

Lemma tenant_allow_true (input : json) :
  tenant_admin.allow input = true
  <-> (holds (dot (Some input) "user_id") = true
       /\ dot (tenant_membership input) "is_active" = Some (JBool true))
      \/ In (JStr "*") (global_grants input)
      \/ In (JStr "tenant:*") (global_grants input).
Proof.
  unfold tenant_admin.allow. rewrite default_false_true.
  rewrite <- !holds_grant_true. split.
  - intros [H|[H|[H|[]]]]; [left|right; left|right; right]; try exact H.
    unfold tenant_admin.allow_member in H. fold (tenant_membership input) in H.
    rewrite !andb_true_iff, eq_true in H.
    destruct H as [[[Hu _] _] [x [Hx Hx']]]. split; [exact Hu | congruence].
  - intros [[Hu Hact]|[H|H]]; [left|right; left|right; right; left];
      try exact H.
    destruct (membership_member_guard input "is_active" _ Hact) as [Ht Hm].
    unfold tenant_admin.allow_member. fold (tenant_membership input).
    rewrite Hu, Ht, Hm, Hact. reflexivity.
Qed.

(** X3: the bare wildcard is a super-user grant in every rule: a user
    holding ["*"] has [authz.allow], [tenant.allow], [create_tenant],
    [manage_tenant], [invite_users] and [data_access] on every input;
    [resource_access] and [ui_visible] still need their [resource] and
    [action], or [ui_component], to be supplied. *)
Theorem bare_wildcard_everywhere (render : json -> string)
    (mismatch : string -> list json -> string) (input : json) :
  In (JStr "*") (global_grants input) ->
  authz.allow input = true
  /\ tenant_admin.allow input = true
  /\ tenant_admin.create_tenant input = Some (JBool true)
  /\ tenant_admin.manage_tenant input = Some (JBool true)
  /\ tenant_admin.invite_users input = Some (JBool true)
  /\ tenant.data_access input = Some (JBool true)
  /\ (authz_access.resource_access render mismatch input = Some (JBool true)
      <-> holds (dot (Some input) "resource") = true
          /\ holds (dot (Some input) "action") = true)
  /\ (authz_access.ui_visible render mismatch input = Some (JBool true)
      <-> holds (dot (Some input) "ui_component") = true).
Proof.
  intros Hstar.
  assert (Hg : tenant_admin.holds_grant input "*" = true)
    by (apply holds_grant_true, Hstar).
  assert (Hs : some_in (dot (dot (Some input) "user") "capabilities")
                 (fun c => Rego.eq (Some c) (Some (JStr "*"))) = true)
    by exact Hg.
  split; [|split; [|split; [|split; [|split; [|split; [|split]]]]]].
  - apply allow_true. left. exists (JStr "*"). split; [exact Hstar|].
    right; left. reflexivity.
  - apply tenant_allow_true. right; left. exact Hstar.
  - apply partial_rule_true. right; left. exact Hg.
  - apply partial_rule_true. right; right; left. exact Hg.
  - apply partial_rule_true. right; right; left. exact Hg.
  - apply partial_rule_true. right; left.
    apply data_access_admin_true, Hstar.
  - split.
    + intros H. apply partial_rule_true in H.
      destruct H as [H|[H|[]]]; apply andb_prop in H as [Hra _];
        apply andb_prop in Hra as [Hr Ha]; split; assumption.
    + intros [Hr Ha]. apply partial_rule_true. right; left.
      unfold authz_access.resource_access_admin. rewrite Hr, Ha. exact Hs.
  - split.
    + intros H. apply partial_rule_true in H.
      destruct H as [H|[H|[H|[]]]]; apply andb_prop in H as [Hc _]; exact Hc.
    + intros Hc. apply partial_rule_true. right; left.
      unfold authz_access.ui_visible_admin. rewrite Hc. exact Hs.
Qed.

Lemma bare_wildcard_everywhere_witness :
  let input := tenant_request ["*"] [] None "t1" "t2" in
  tenant_admin.allow input = true
  /\ tenant.data_access input = Some (JBool true)
  /\ authz_access.ui_visible sample_render sample_mismatch input = None.
Proof.
  intros input.
  assert (Hstar : In (JStr "*") (global_grants input)) by (left; reflexivity).
  pose proof (bare_wildcard_everywhere sample_render sample_mismatch input Hstar)
    as [_ [Ha [_ [_ [_ [Hd _]]]]]].
  split; [exact Ha|]. split; [exact Hd | reflexivity].
Defined.

(** X4: the role rules do not look at [is_active]: a membership whose role
    is ["admin"] gives [manage_tenant] and [invite_users] on every input,
    also when the membership is suspended and [tenant.allow] denies. *)
Theorem admin_role_ignores_suspension (input : json) :
  dot (tenant_membership input) "role" = Some (JStr "admin") ->
  tenant_admin.manage_tenant input = Some (JBool true)
  /\ tenant_admin.invite_users input = Some (JBool true)
  /\ (dot (tenant_membership input) "is_active" <> Some (JBool true) ->
      ~ In (JStr "*") (global_grants input) ->
      ~ In (JStr "tenant:*") (global_grants input) ->
      tenant_admin.allow input = false).
Proof.
  intros Hrole. split; [|split].
  - apply partial_rule_true. left. apply manage_tenant_role_true, Hrole.
  - apply partial_rule_true. left. apply invite_users_role_true. left.
    exact Hrole.
  - intros Hoff Hstar Htenant.
    destruct (tenant_admin.allow input) eqn:H; [|reflexivity].
    apply tenant_allow_true in H. destruct H as [[_ H]|[H|H]]; contradiction.
Qed.

Lemma admin_role_ignores_suspension_witness :
  let input := tenant_request [] [("t1", role_doc false "admin")]
                 (Some "u1") "t1" "t1" in
  tenant_admin.manage_tenant input = Some (JBool true)
  /\ tenant_admin.invite_users input = Some (JBool true)
  /\ tenant_admin.allow input = false.
Proof.
  intros input.
  destruct (admin_role_ignores_suspension input eq_refl) as [Hm [Hi Ha]].
  split; [exact Hm|]. split; [exact Hi|].
  apply Ha.
  - discriminate.
  - intros [].
  - intros [].
Defined.

(** X5: whoever may manage a tenant may invite users to it, unless the
    right to manage comes from the global grant ["tenant:manage"]. *)
Theorem manage_implies_invite (input : json) :
  tenant_admin.manage_tenant input = Some (JBool true) ->
  ~ In (JStr "tenant:manage") (global_grants input) ->
  tenant_admin.invite_users input = Some (JBool true).
Proof.
  intros H Hno. apply partial_rule_true in H. apply partial_rule_true.
  destruct H as [H|[H|[H|[]]]].
  - left. apply invite_users_role_true. left.
    apply manage_tenant_role_true, H.
  - apply holds_grant_true in H. contradiction.
  - right; right; left. exact H.
Qed.

Lemma manage_implies_invite_witness :
  let input := tenant_request [] [("t1", role_doc true "admin")]
                 (Some "u1") "t1" "t1" in
  tenant_admin.invite_users input = Some (JBool true)
  /\ tenant_admin.manage_tenant
       (tenant_request ["tenant:manage"] [] (Some "u1") "t1" "t1")
     = Some (JBool true)
  /\ tenant_admin.invite_users
       (tenant_request ["tenant:manage"] [] (Some "u1") "t1" "t1")
     = None.
Proof.
  intros input. split; [|split; reflexivity].
  apply (manage_implies_invite input); [reflexivity|].
  intros [].
Defined.

(** X6: for a request that carries a [user_id], [data_access] implies
    [tenant.allow]; without a [user_id] an active member has
    [data_access] on the own tenant while [tenant.allow] denies. *)
Theorem data_access_within_tenant_allow (input : json) :
  holds (dot (Some input) "user_id") = true ->
  tenant.data_access input = Some (JBool true) ->
  tenant_admin.allow input = true.
Proof.
  intros Hu H. apply tenant_allow_true.
  unfold tenant.data_access in H. apply partial_rule_true in H.
  destruct H as [H|[H|[]]].
  - left. split; [exact Hu|].
    apply data_access_same_tenant_true in H. apply H.
  - right; left. apply data_access_admin_true, H.
Qed.

Lemma data_access_within_tenant_allow_witness :
  let ms := [("t1", role_doc true "member")] in
  tenant_admin.allow (tenant_request [] ms (Some "u1") "t1" "t1") = true
  /\ tenant.data_access (tenant_request [] ms None "t1" "t1") = Some (JBool true)
  /\ tenant_admin.allow (tenant_request [] ms None "t1" "t1") = false.
Proof.
  intros ms. split; [|split; reflexivity].
  apply (data_access_within_tenant_allow
           (tenant_request [] ms (Some "u1") "t1" "t1")); reflexivity.
Defined.

(** ** More on [authz.allow] *)

(** X7: [authz.allow] is monotone in the grants: towards a request for the
    same capability with at least the same global grants, and with the
    tenant membership still active and holding at least the same grants,
    an allow never becomes a deny. *)
Theorem allow_monotone (input input' : json) :
  requested input' = requested input ->
  (forall g, In g (global_grants input) -> In g (global_grants input')) ->
  (membership_active input ->
   membership_active input'
   /\ forall g, In g (tenant_grants input) -> In g (tenant_grants input')) ->
  authz.allow input = true ->
  authz.allow input' = true.
Proof.
  intros Hreq Hglobal Htenant H. apply allow_true in H. apply allow_true.
  destruct H as [[g [Hin Hm]]|[Hact [g [Hin Hm]]]].
  - left. exists g. split; [apply Hglobal, Hin|]. rewrite Hreq. exact Hm.
  - right. destruct (Htenant Hact) as [Hact' Hsub]. split; [exact Hact'|].
    exists g. split; [apply Hsub, Hin|]. rewrite Hreq. exact Hm.
Qed.

Lemma allow_monotone_witness :
  authz.allow (sample ["chat.*"; "embeddings.create"] "chat.completions") = true.
Proof.
  apply (allow_monotone (sample ["chat.*"] "chat.completions")).
  - reflexivity.
  - intros g [<-|[]]. left. reflexivity.
  - intros Hact. destruct (sample_no_tenant _ _ Hact).
  - reflexivity.
Defined.

Lemma tenant_sample_membership (caps : list string)
    (memberships : list (string * json)) (t req : string) :
  tenant_membership (tenant_sample caps memberships t req)
  = member t memberships.
Proof. reflexivity. Qed.

(** X8: only the membership named by [tenant_id] is consulted: two
    requests that differ in the user's memberships in other tenants get
    the same decision. *)
Theorem other_memberships_irrelevant (caps : list string)
    (memberships memberships' : list (string * json)) (t req : string) :
  member t memberships = member t memberships' ->
  authz.allow (tenant_sample caps memberships t req)
  = authz.allow (tenant_sample caps memberships' t req).
Proof.
  intros Hsame.
  assert (Hiff : grant_matches (tenant_sample caps memberships t req)
                 <-> grant_matches (tenant_sample caps memberships' t req)).
  { unfold grant_matches, membership_active, tenant_grants.
    rewrite !tenant_sample_membership, Hsame. reflexivity. }
  rewrite <- !allow_true in Hiff.
  destruct (authz.allow (tenant_sample caps memberships t req)),
           (authz.allow (tenant_sample caps memberships' t req));
    try reflexivity.
  - symmetry. apply Hiff. reflexivity.
  - apply Hiff. reflexivity.
Qed.

Lemma other_memberships_irrelevant_witness :
  authz.allow (tenant_sample []
                 [("t1", membership_doc true []);
                  ("t2", membership_doc true ["chat.completions"; "*"])]
                 "t1" "chat.completions")
  = false.
Proof.
  etransitivity.
  - apply (other_memberships_irrelevant []
             [("t1", membership_doc true []);
              ("t2", membership_doc true ["chat.completions"; "*"])]
             [("t1", membership_doc true [])] "t1" "chat.completions").
    reflexivity.
  - reflexivity.
Defined.

(** ** [package api] *)

(** X9: the rate limit fails closed: a request without [rate_limit] (or
    with [rate_limit] false) passes; a supplied [rate_limit] that lacks
    [current] or [limit] leaves [rate_limit_ok] undefined; with numbers it
    passes exactly when [current] is strictly below [limit]. *)
Theorem rate_limit_fails_closed (order : json -> json -> bool) (input : json) :
  let rate_limit := dot (Some input) "rate_limit" in
  (holds rate_limit = false ->
   api.rate_limit_ok order input = Some (JBool true))
  /\ (holds rate_limit = true ->
      dot rate_limit "current" = None \/ dot rate_limit "limit" = None ->
      api.rate_limit_ok order input = None)
  /\ (forall c l : Z,
        dot rate_limit "current" = Some (JNum c) ->
        dot rate_limit "limit" = Some (JNum l) ->
        (api.rate_limit_ok order input = Some (JBool true) <-> c < l)).
Proof.
  intros rate_limit. unfold api.rate_limit_ok, api.rate_limit_ok_below,
    api.rate_limit_ok_absent, not_. fold rate_limit.
  split; [|split].
  - intros H. rewrite H. reflexivity.
  - intros H Hmiss. rewrite H.
    destruct Hmiss as [Hm|Hm]; rewrite Hm; simpl.
    + reflexivity.
    + destruct (dot rate_limit "current") as [[| | | | |]|]; reflexivity.
  - intros c l Hc Hl. rewrite Hc, Hl.
    assert (Hrl : holds rate_limit = true).
    { destruct rate_limit as [[| | | | |]|]; try reflexivity; discriminate Hc. }
    rewrite Hrl. simpl. destruct (Z.ltb_spec c l) as [Hlt|Hge]; simpl.
    + split; [intros _; exact Hlt | reflexivity].
    + split; [discriminate | lia].
Qed.

Lemma rate_limit_fails_closed_witness :
  api.rate_limit_ok sample_order
    (rate_sample (JObj [("current", JNum 5); ("limit", JNum 5)])) = None
  /\ api.rate_limit_ok sample_order (rate_sample (JObj [("limit", JNum 10)]))
     = None.
Proof.
  split.
  - destruct (api.rate_limit_ok sample_order
                (rate_sample (JObj [("current", JNum 5); ("limit", JNum 5)])))
      as [v|] eqn:H; [|reflexivity].
    exfalso.
    assert (Hv : v = JBool true).
    { unfold api.rate_limit_ok, partial_rule in H.
      destruct (existsb id _); congruence. }
    subst v.
    apply (proj2 (proj2 (rate_limit_fails_closed sample_order
                           (rate_sample (JObj [("current", JNum 5);
                                               ("limit", JNum 5)]))))
             5 5 eq_refl eq_refl) in H.
    lia.
  - apply (proj1 (proj2 (rate_limit_fails_closed sample_order
                           (rate_sample (JObj [("limit", JNum 10)])))));
      [reflexivity | left; reflexivity].
Defined.

(** * Properties of the front end *)

Module FrontFacts.

Import progressiveFields.

Lemma includes_true (xs : list string) (x : string) :
  existsb (String.eqb x) xs = true <-> In x xs.
Proof.
  rewrite existsb_exists. split.
  - intros [y [Hin Hy]]. apply String.eqb_eq in Hy. congruence.
  - intros Hin. exists x. split; [exact Hin | apply String.eqb_refl].
Qed.

Lemma is_visible_present (r o : list string) (field : string) :
  is_visible {| required_fields := Some r; optional_fields := Some o |} field
  = Some (existsb (String.eqb field) r || existsb (String.eqb field) o).
Proof.
  unfold is_visible. simpl. destruct (existsb (String.eqb field) r); reflexivity.
Qed.

(** X10: with both lists present, [getVisibleFields] returns the fields of
    [order] that are required or optional, in the order and with the
    repetitions of [order]; a field the context lists but [order] lacks is
    never returned. *)
Theorem getVisibleFields_filters (order r o : list string) :
  let context := {| required_fields := Some r; optional_fields := Some o |} in
  getVisibleFields order context
  = Some (List.filter
            (fun f => existsb (String.eqb f) r || existsb (String.eqb f) o)
            order)
  /\ forall fields f,
       getVisibleFields order context = Some fields ->
       (In f fields <-> In f order /\ (In f r \/ In f o)).
Proof.
  intros context.
  assert (Heq : getVisibleFields order context
                = Some (List.filter
                          (fun f => existsb (String.eqb f) r
                                    || existsb (String.eqb f) o) order)).
  { induction order as [|field rest IH]; [reflexivity|].
    simpl. unfold context at 1. rewrite is_visible_present.
    rewrite IH. destruct (_ || _); reflexivity. }
  split; [exact Heq|].
  intros fields f H. rewrite Heq in H. injection H as <-.
  rewrite List.filter_In, orb_true_iff, !includes_true. reflexivity.
Qed.

(** X11: [getVisibleFields] is idempotent: filtering what it returned, in
    the same context, returns it again (also in a context that lacks a
    list, when the first call did not throw). *)
Theorem getVisibleFields_idempotent (order fields : list string)
    (context : Context) :
  getVisibleFields order context = Some fields ->
  getVisibleFields fields context = Some fields.
Proof.
  revert fields. induction order as [|field rest IH]; intros fields H.
  - injection H as <-. reflexivity.
  - simpl in H.
    destruct (is_visible context field) as [keep|] eqn:Hv; [|discriminate].
    destruct (getVisibleFields rest context) as [fs|]; [|discriminate].
    injection H as <-. specialize (IH fs eq_refl).
    destruct keep; [|exact IH].
    simpl. rewrite Hv, IH. reflexivity.
Qed.

Lemma getVisibleFields_idempotent_witness :
  let context := {| required_fields := Some ["email"; "phone"];
                    optional_fields := Some ["city"] |} in
  getVisibleFields ["name"; "email"; "age"; "phone"] context
  = Some ["email"; "phone"]
  /\ getVisibleFields ["email"; "phone"] context = Some ["email"; "phone"].
Proof.
  intros context.
  assert (H : getVisibleFields ["name"; "email"; "age"; "phone"] context
              = Some ["email"; "phone"]) by reflexivity.
  split; [exact H|].
  exact (getVisibleFields_idempotent _ _ context H).
Defined.

Lemma is_visible_throws (context : Context) (field : string) :
  is_visible context field = None
  <-> required_fields context = None
      \/ (optional_fields context = None
          /\ exists r, required_fields context = Some r /\ ~ In field r).
Proof.
  unfold is_visible, includes.
  destruct (required_fields context) as [r|].
  - destruct (existsb (String.eqb field) r) eqn:Hin.
    + apply includes_true in Hin. split; [discriminate|].
      intros [H|[_ [r' [Hr' Hnot]]]]; [discriminate|].
      injection Hr' as <-. contradiction.
    + assert (Hnot : ~ In field r).
      { intros H. apply includes_true in H. congruence. }
      destruct (optional_fields context) as [o|].
      * split; [discriminate|]. intros [H|[H _]]; discriminate.
      * split; [|reflexivity]. intros _. right. split; [reflexivity|].
        exists r. auto.
  - split; [|reflexivity]. intros _. left. reflexivity.
Qed.

Lemma getVisibleFields_throws_at (order : list string) (context : Context) :
  getVisibleFields order context = None
  <-> exists f, In f order /\ is_visible context f = None.
Proof.
  induction order as [|field rest IH].
  - split; [discriminate | intros [f [[] _]]].
  - simpl. destruct (is_visible context field) as [keep|] eqn:Hv.
    + destruct (getVisibleFields rest context) as [fs|].
      * split; [discriminate|]. intros [f [[<-|Hf] Hnone]]; [congruence|].
        assert (Hcontra : Some fs = None) by (apply IH; eauto).
        discriminate Hcontra.
      * split; [|reflexivity]. intros _.
        destruct (proj1 IH eq_refl) as [f [Hf Hnone]]. eauto.
    + split; [|reflexivity]. intros _. exists field. auto.
Qed.

(** X12: [getVisibleFields] throws exactly when [order] is not empty and
    [required_fields] is missing, or [optional_fields] is missing and some
    field of [order] is not required; an empty [order] never throws. *)
Theorem getVisibleFields_throws (order : list string) (context : Context) :
  getVisibleFields order context = None
  <-> order <> []
      /\ (required_fields context = None
          \/ (optional_fields context = None
              /\ exists f r, In f order
                             /\ required_fields context = Some r
                             /\ ~ In f r)).
Proof.
  rewrite getVisibleFields_throws_at. split.
  - intros [f [Hf Hnone]]. split; [intros ->; destruct Hf|].
    apply is_visible_throws in Hnone as [H|[Ho [r [Hr Hnot]]]].
    + left. exact H.
    + right. split; [exact Ho|]. exists f, r. auto.
  - intros [Hne [H|[Ho [f [r [Hf [Hr Hnot]]]]]]].
    + destruct order as [|f rest]; [congruence|].
      exists f. split; [left; reflexivity|].
      apply is_visible_throws. left. exact H.
    + exists f. split; [exact Hf|].
      apply is_visible_throws. right. split; [exact Ho|]. exists r. auto.
Qed.

Lemma getVisibleFields_throws_witness :
  getVisibleFields ["email"; "age"]
    {| required_fields := Some ["email"]; optional_fields := None |} = None
  /\ getVisibleFields []
       {| required_fields := None; optional_fields := None |} = Some [].
Proof.
  split; [|reflexivity].
  apply getVisibleFields_throws. split; [discriminate|].
  right. split; [reflexivity|]. exists "age"%string, ["email"%string].
  split; [right; left; reflexivity|]. split; [reflexivity|].
  intros [H|[]]. discriminate H.
Defined.

Lemma getVisibleFields_filters_witness :
  getVisibleFields ["name"; "email"; "name"; "phone"]
    {| required_fields := Some ["name"; "city"];
       optional_fields := Some ["phone"] |}
  = Some ["name"; "name"; "phone"]
  /\ ~ In "city"%string ["name"; "name"; "phone"]%string.
Proof.
  assert (H : getVisibleFields ["name"; "email"; "name"; "phone"]
                {| required_fields := Some ["name"; "city"];
                   optional_fields := Some ["phone"] |}
              = Some ["name"; "name"; "phone"]) by reflexivity.
  split; [exact H|].
  intros Hin.
  apply (proj2 (getVisibleFields_filters ["name"; "email"; "name"; "phone"]
                  ["name"; "city"] ["phone"]) _ "city"%string H) in Hin.
  destruct Hin as [[Hc|[Hc|[Hc|[Hc|[]]]]] _]; discriminate Hc.
Defined.

(** ** The login form *)

Local Open Scope nat_scope.

Lemma test_classes (classes : list (ascii -> bool)) (s : string) :
  JS.test classes s = true
  <-> Forall2 (fun c a => c a = true) classes (list_ascii_of_string s).
Proof.
  revert s. induction classes as [|c classes IH]; intros [|a s]; simpl.
  - split; [constructor | reflexivity].
  - split; [discriminate | intros H; inversion H].
  - split; [discriminate | intros H; inversion H].
  - rewrite andb_true_iff, IH. split.
    + intros [Hc H]. constructor; assumption.
    + intros H. inversion H; subst. auto.
Qed.

Lemma Forall2_repeat_l {A B : Type} (P : A -> B -> Prop) (x : A) (n : nat)
    (l : list B) :
  Forall2 P (repeat x n) l <-> List.length l = n /\ Forall (P x) l.
Proof.
  revert l. induction n as [|n IH]; intros l; simpl.
  - split.
    + intros H. inversion H. split; [reflexivity | constructor].
    + intros [Hl _]. destruct l; [constructor | discriminate].
  - split.
    + intros H. inversion H as [|? b ? l' Hx Hrest]; subst.
      apply IH in Hrest as [Hl Hall]. split; [simpl; congruence|].
      constructor; assumption.
    + intros [Hl Hall]. destruct l as [|b l']; [discriminate|].
      inversion Hall; subst. constructor; [assumption|].
      apply IH. split; [simpl in Hl; congruence | assumption].
Qed.

Lemma length_list_ascii (s : string) :
  List.length (list_ascii_of_string s) = String.length s.
Proof. induction s; simpl; congruence. Qed.

Lemma validateMobile_accepts (m : string) :
  fst (LoginForm.validateMobile m) = true
  <-> exists a rest,
        m = String a rest
        /\ JS.in_range "6" "9" a = true
        /\ String.length rest = 9
        /\ digits_only rest.
Proof.
  unfold LoginForm.validateMobile.
  destruct (JS.test LoginForm.indianMobileRegex m) eqn:Htest; simpl.
  - split; [intros _ | reflexivity].
    apply test_classes in Htest. unfold LoginForm.indianMobileRegex in Htest.
    destruct m as [|a rest]; [inversion Htest|].
    cbn [list_ascii_of_string] in Htest.
    inversion Htest as [|? ? ? ? Ha Hrest]; subst.
    apply (Forall2_repeat_l (fun (c : ascii -> bool) a => c a = true)
             JS.is_digit 9) in Hrest as [Hl Hall].
    exists a, rest. rewrite length_list_ascii in Hl. auto.
  - split; [discriminate|].
    intros [a [rest [-> [Ha [Hl Hall]]]]].
    assert (Hyes : JS.test LoginForm.indianMobileRegex (String a rest) = true);
      [|congruence].
    apply test_classes. unfold LoginForm.indianMobileRegex.
    cbn [list_ascii_of_string]. constructor; [exact Ha|].
    apply Forall2_repeat_l. rewrite length_list_ascii. auto.
Qed.

Lemma strip_non_digits_digits (s : string) :
  digits_only (JS.strip_non_digits s).
Proof.
  unfold digits_only. induction s as [|a s IH]; simpl; [constructor|].
  destruct (JS.is_digit a) eqn:Ha; [|exact IH].
  simpl. constructor; assumption.
Qed.

Lemma substring_0_digits (n : nat) (s : string) :
  digits_only s -> digits_only (String.substring 0 n s).
Proof.
  unfold digits_only. revert s. induction n as [|n IH]; intros [|a s] H;
    simpl; try constructor.
  - inversion H; assumption.
  - apply IH. inversion H; assumption.
Qed.

Lemma substring_0_length (n : nat) (s : string) :
  String.length (String.substring 0 n s) = Nat.min n (String.length s).
Proof.
  revert s. induction n as [|n IH]; intros [|a s]; simpl; try reflexivity.
  rewrite IH. reflexivity.
Qed.

Lemma handle_keeps_otp_field (e : LoginForm.Event) (st : LoginForm.State) :
  otp_field_ok st -> otp_field_ok (fst (LoginForm.handle e st)).
Proof.
  intros Hst. destruct e; simpl; try exact Hst.
  - apply substring_0_digits, strip_non_digits_digits.
  - unfold LoginForm.handleMobileSubmit.
    destruct (LoginForm.validateMobile (LoginForm.mobile st)). exact Hst.
Qed.

Lemma handle_calls_well_formed (e : LoginForm.Event) (st : LoginForm.State) :
  otp_field_ok st ->
  forall call, In call (snd (LoginForm.handle e st)) ->
    match call with
    | LoginForm.onOTPVerify v => String.length v = 6 /\ digits_only v
    | LoginForm.onOTPRequest m => fst (LoginForm.validateMobile m) = true
    end.
Proof.
  intros Hst call Hin. destruct e; simpl in Hin; try destruct Hin.
  - unfold LoginForm.handleMobileSubmit in Hin.
    destruct (LoginForm.validateMobile (LoginForm.mobile st)) as [ok msg] eqn:Hv.
    destruct ok; simpl in Hin; [|destruct Hin].
    destruct Hin as [<-|[]]. rewrite Hv. reflexivity.
  - destruct (String.length (LoginForm.otp st) =? 6) eqn:Hlen;
      simpl in Hin; [|destruct Hin].
    destruct Hin as [<-|[]]. apply Nat.eqb_eq in Hlen. auto.
Qed.

Lemma run_calls_well_formed (events : list LoginForm.Event)
    (st : LoginForm.State) :
  otp_field_ok st ->
  forall call, In call (snd (LoginForm.run events st)) ->
    match call with
    | LoginForm.onOTPVerify v => String.length v = 6 /\ digits_only v
    | LoginForm.onOTPRequest m => fst (LoginForm.validateMobile m) = true
    end.
Proof.
  revert st. induction events as [|e rest IH]; intros st Hst call Hin.
  - destruct Hin.
  - simpl in Hin.
    pose proof (handle_keeps_otp_field e st Hst) as Hnext.
    pose proof (handle_calls_well_formed e st Hst) as Hnow.
    destruct (LoginForm.handle e st) as [st' calls].
    specialize (IH st' Hnext).
    destruct (LoginForm.run rest st') as [st'' calls'].
    simpl in *. apply in_app_or in Hin as [Hin|Hin].
    + exact (Hnow call Hin).
    + exact (IH call Hin).
Qed.

(** X13: whatever the user types and submits, the form hands
    [onOTPVerify] only strings of exactly six decimal digits and
    [onOTPRequest] only ten-digit numbers that start with 6, 7, 8 or 9. *)
Theorem login_form_calls_well_formed (events : list LoginForm.Event) :
  forall call, In call (snd (LoginForm.run events LoginForm.initial)) ->
    match call with
    | LoginForm.onOTPVerify v => String.length v = 6 /\ digits_only v
    | LoginForm.onOTPRequest m =>
        exists a rest,
          m = String a rest
          /\ JS.in_range "6" "9" a = true
          /\ String.length rest = 9
          /\ digits_only rest
    end.
Proof.
  intros call Hin.
  assert (Hinit : otp_field_ok LoginForm.initial) by constructor.
  pose proof (run_calls_well_formed events LoginForm.initial Hinit call Hin)
    as H.
  destruct call; [apply validateMobile_accepts, H | exact H].
Qed.

Lemma login_form_calls_well_formed_witness :
  snd (LoginForm.run
         [LoginForm.MobileChange "+919876543210"; LoginForm.MobileSubmit;
          LoginForm.MobileChange "9876543210"; LoginForm.MobileSubmit;
          LoginForm.OTPChange "12-34 56789"; LoginForm.OTPSubmit]
         LoginForm.initial)
  = [LoginForm.onOTPRequest "9876543210"; LoginForm.onOTPVerify "123456"]
  /\ String.length "123456" = 6 /\ digits_only "123456".
Proof.
  assert (H : snd (LoginForm.run
                     [LoginForm.MobileChange "+919876543210";
                      LoginForm.MobileSubmit;
                      LoginForm.MobileChange "9876543210";
                      LoginForm.MobileSubmit;
                      LoginForm.OTPChange "12-34 56789"; LoginForm.OTPSubmit]
                     LoginForm.initial)
              = [LoginForm.onOTPRequest "9876543210";
                 LoginForm.onOTPVerify "123456"]) by reflexivity.
  split; [exact H|].
  apply (login_form_calls_well_formed
           [LoginForm.MobileChange "+919876543210"; LoginForm.MobileSubmit;
            LoginForm.MobileChange "9876543210"; LoginForm.MobileSubmit;
            LoginForm.OTPChange "12-34 56789"; LoginForm.OTPSubmit]
           (LoginForm.onOTPVerify "123456")).
  rewrite H. right; left. reflexivity.
Defined.

Lemma strip_non_digits_length (s : string) :
  String.length (JS.strip_non_digits s) <= String.length s.
Proof.
  induction s as [|a s IH]; simpl; [lia|].
  destruct (JS.is_digit a); simpl; lia.
Qed.

(** X14: typing into the OTP field and submitting verifies the first six
    digits typed, other characters being dropped, and verifies nothing
    when fewer than six digits were typed. *)
Theorem otp_typed_then_submitted (st : LoginForm.State) (typed : string) :
  let st' := fst (LoginForm.handle (LoginForm.OTPChange typed) st) in
  snd (LoginForm.handle LoginForm.OTPSubmit st')
  = if 6 <=? String.length (JS.strip_non_digits typed)
    then [LoginForm.onOTPVerify
            (String.substring 0 6 (JS.strip_non_digits typed))]
    else [].
Proof.
  intros st'. subst st'.
  destruct (Nat.leb_spec 6 (String.length (JS.strip_non_digits typed)))
    as [Hge|Hlt]; cbn [LoginForm.handle LoginForm.handleOTPSubmit fst snd
                       LoginForm.otp];
    unfold JS.slice_to; rewrite substring_0_length.
  - rewrite Nat.min_l by exact Hge. reflexivity.
  - rewrite Nat.min_r by lia.
    destruct (Nat.eqb_spec (String.length (JS.strip_non_digits typed)) 6);
      [lia | reflexivity].
Qed.

(** ** The OTP boxes *)

Lemma substring_0_0 (s : string) : String.substring 0 0 s = EmptyString.
Proof. destruct s; reflexivity. Qed.

Lemma substring_split (s : string) (k n : nat) :
  String.append (String.substring k 1 s) (String.substring (S k) n s)
  = String.substring k (S n) s.
Proof.
  revert k. induction s as [|c s IH]; intros k.
  - destruct k; reflexivity.
  - destruct k as [|k].
    + simpl. rewrite substring_0_0. reflexivity.
    + simpl. apply IH.
Qed.

Lemma join_slots_from (s : string) (k n : nat) :
  JS.join (map (JS.char_or_empty s) (seq k n)) = String.substring k n s.
Proof.
  revert k. induction n as [|n IH]; intros k.
  - simpl. revert k. induction s as [|c s IHs]; intros [|k];
      try reflexivity. simpl. apply IHs.
  - simpl. rewrite IH. apply substring_split.
Qed.

Lemma join_slots_of (len : nat) (s : string) :
  JS.join (JS.slots_of len s) = JS.slice_to len s.
Proof. apply join_slots_from. Qed.

Lemma length_slots_of (len : nat) (s : string) :
  List.length (JS.slots_of len s) = len.
Proof. unfold JS.slots_of. rewrite length_map, length_seq. reflexivity. Qed.

Lemma char_or_empty_cases (s : string) (i : nat) :
  (String.length s <= i /\ JS.char_or_empty s i = EmptyString)
  \/ (i < String.length s
      /\ exists c, JS.char_or_empty s i = String c EmptyString
                   /\ In c (list_ascii_of_string s)).
Proof.
  unfold JS.char_or_empty. revert i. induction s as [|a s IH]; intros i.
  - left. split; [simpl; lia | destruct i; reflexivity].
  - destruct i as [|i].
    + right. split; [simpl; lia|]. exists a. simpl.
      rewrite substring_0_0. auto.
    + simpl. destruct (IH i) as [[Hle He]|[Hlt [c [Hc Hin]]]].
      * left. split; [lia | exact He].
      * right. split; [lia|]. exists c. auto.
Qed.

Lemma list_ascii_append (a b : string) :
  list_ascii_of_string (String.append a b)
  = (list_ascii_of_string a ++ list_ascii_of_string b)%list.
Proof.
  induction a as [|c a IH]; [reflexivity|].
  rewrite append_cons. simpl. rewrite IH. reflexivity.
Qed.

Lemma digits_only_append (a b : string) :
  digits_only a -> digits_only b -> digits_only (String.append a b).
Proof.
  unfold digits_only. rewrite list_ascii_append. intros Ha Hb.
  apply Forall_app. split; assumption.
Qed.

Lemma box_ok_digits (d : string) : OTPInput.box_ok d -> digits_only d.
Proof.
  intros [->|[c [-> Hc]]]; unfold digits_only; simpl; repeat constructor.
  exact Hc.
Qed.

Lemma digits_only_join (ds : list string) :
  Forall OTPInput.box_ok ds -> digits_only (JS.join ds).
Proof.
  induction 1 as [|d ds Hd _ IH]; simpl; [constructor|].
  apply digits_only_append; [apply box_ok_digits, Hd | exact IH].
Qed.

Lemma slots_of_boxes_ok (len : nat) (s : string) :
  digits_only s -> OTPInput.boxes_ok len (JS.slots_of len s).
Proof.
  intros Hs. split; [apply length_slots_of|].
  unfold JS.slots_of. apply List.Forall_forall. intros d Hd.
  apply in_map_iff in Hd as [i [<- _]].
  destruct (char_or_empty_cases s i) as [[_ He]|[_ [c [Hc Hin]]]].
  - left. exact He.
  - right. exists c. split; [exact Hc|].
    unfold digits_only in Hs. rewrite List.Forall_forall in Hs.
    apply Hs, Hin.
Qed.

Lemma accepted_digit (d : string) :
  negb (JS.is_empty d) && negb (JS.test [JS.is_digit] d) = false ->
  OTPInput.box_ok d.
Proof.
  destruct d as [|c [|c' d]]; simpl.
  - intros _. left. reflexivity.
  - rewrite andb_true_r. intros H. right. exists c. split; [reflexivity|].
    destruct (JS.is_digit c); [reflexivity | discriminate].
  - rewrite andb_false_r. discriminate.
Qed.

Lemma assign_in_range (xs : list string) (i : nat) (x : string) :
  i < List.length xs -> JS.assign xs i x = <[i := x]> xs.
Proof.
  intros Hi. unfold JS.assign.
  destruct (Nat.ltb_spec i (List.length xs)); [reflexivity | lia].
Qed.

Lemma boxes_ok_assign (len : nat) (ds : list string) (i : nat) (x : string) :
  OTPInput.boxes_ok len ds -> i < len -> OTPInput.box_ok x ->
  OTPInput.boxes_ok len (JS.assign ds i x).
Proof.
  intros [Hlen Hall] Hi Hx. rewrite assign_in_range by lia. split.
  - rewrite length_insert. exact Hlen.
  - apply Forall_insert; assumption.
Qed.

Lemma find_index_lt (p : string -> bool) (xs : list string) (i : nat) :
  JS.find_index p xs = Some i -> i < List.length xs.
Proof.
  revert i. induction xs as [|x xs IH]; intros i; simpl; [discriminate|].
  destruct (p x); [intros [= <-]; lia|].
  destruct (JS.find_index p xs) as [j|]; [|discriminate].
  intros [= <-]. specialize (IH j eq_refl). lia.
Qed.

Section Boxes.
Variable length : nat.

Lemma handleChange_ok (digits : list string) (index : nat) (digit : string) :
  OTPInput.boxes_ok length digits -> index < length ->
  OTPInput.boxes_ok length (fst (OTPInput.handleChange length digits index digit))
  /\ Forall (OTPInput.effect_ok length)
       (snd (OTPInput.handleChange length digits index digit)).
Proof.
  intros Hok Hi. unfold OTPInput.handleChange.
  set (d := if 1 <? String.length digit then JS.slice_last digit else digit).
  destruct (negb (JS.is_empty d) && negb (JS.test [JS.is_digit] d)) eqn:Hacc.
  - split; [exact Hok | constructor].
  - apply accepted_digit in Hacc.
    pose proof (boxes_ok_assign length digits index d Hok Hi Hacc) as Hnew.
    split; [exact Hnew|]. cbn [snd].
    assert (Hv : digits_only (JS.join (JS.assign digits index d)))
      by (apply digits_only_join, Hnew).
    apply Forall_app. split; [repeat constructor; exact Hv|].
    apply Forall_app. split.
    + destruct (negb (JS.is_empty d) && (index + 1 <? length)) eqn:Hf;
        [|constructor].
      apply andb_prop in Hf as [_ Hf]. apply Nat.ltb_lt in Hf.
      repeat constructor. simpl. lia.
    + destruct (Nat.eqb_spec
                  (String.length (JS.join (JS.assign digits index d))) length)
        as [Hlen|_]; [|constructor].
      repeat constructor; assumption.
Qed.

Lemma handleKeyDown_ok (digits : list string) (index : nat) (key : string) :
  OTPInput.boxes_ok length digits -> index < length ->
  OTPInput.boxes_ok length (fst (OTPInput.handleKeyDown length digits index key))
  /\ Forall (OTPInput.effect_ok length)
       (snd (OTPInput.handleKeyDown length digits index key)).
Proof.
  intros Hok Hi. unfold OTPInput.handleKeyDown.
  destruct (String.eqb key "Backspace").
  { destruct (JS.is_empty (nth index digits EmptyString) && (0 <? index)).
    - split; [exact Hok|]. repeat constructor. simpl. lia.
    - apply handleChange_ok; assumption. }
  destruct (String.eqb key "ArrowLeft" && (0 <? index)).
  { split; [exact Hok|]. repeat constructor. simpl. lia. }
  destruct (String.eqb key "ArrowRight" && (index + 1 <? length)) eqn:Hr.
  { split; [exact Hok|]. apply andb_prop in Hr as [_ Hr].
    apply Nat.ltb_lt in Hr. repeat constructor. simpl. lia. }
  destruct (String.eqb key "Delete").
  { apply handleChange_ok; assumption. }
  split; [exact Hok | constructor].
Qed.

Lemma handlePaste_ok (digits : list string) (pastedData : string) :
  OTPInput.boxes_ok length digits ->
  OTPInput.boxes_ok length (fst (OTPInput.handlePaste length digits pastedData))
  /\ Forall (OTPInput.effect_ok length)
       (snd (OTPInput.handlePaste length digits pastedData)).
Proof.
  intros Hok. unfold OTPInput.handlePaste.
  set (p := JS.slice_to length (JS.strip_non_digits pastedData)).
  assert (Hp : digits_only p)
    by (apply substring_0_digits, strip_non_digits_digits).
  destruct (JS.is_empty p) eqn:Hempty; cbn [negb fst snd].
  - split; [exact Hok | constructor].
  - pose proof (slots_of_boxes_ok length p Hp) as Hnew.
    split; [exact Hnew|].
    assert (Hv : digits_only (JS.join (JS.slots_of length p)))
      by (apply digits_only_join, Hnew).
    assert (Hpos : 0 < length).
    { destruct length; [|lia]. unfold p, JS.slice_to in Hempty.
      rewrite substring_0_0 in Hempty. discriminate. }
    constructor; [exact Hv|]. constructor.
    + simpl. destruct (JS.find_index JS.is_empty (JS.slots_of length p))
        as [i|] eqn:Hfind; [|lia].
      apply find_index_lt in Hfind. rewrite length_slots_of in Hfind.
      exact Hfind.
    + destruct (Nat.eqb_spec
                  (String.length (JS.join (JS.slots_of length p))) length)
        as [Hlen|_]; [|constructor].
      repeat constructor; assumption.
Qed.

Lemma handle_ok (e : OTPInput.Event) (digits : list string) :
  OTPInput.boxes_ok length digits -> OTPInput.event_ok length e ->
  OTPInput.boxes_ok length (fst (OTPInput.handle length e digits))
  /\ Forall (OTPInput.effect_ok length) (snd (OTPInput.handle length e digits)).
Proof.
  intros Hok [Hrange Hvalue]. destruct e; simpl in *.
  - apply handleChange_ok; assumption.
  - apply handleKeyDown_ok; assumption.
  - apply handlePaste_ok; assumption.
  - split; [apply slots_of_boxes_ok, Hvalue | constructor].
Qed.

Lemma run_ok (events : list OTPInput.Event) (digits : list string) :
  OTPInput.boxes_ok length digits ->
  Forall (OTPInput.event_ok length) events ->
  OTPInput.boxes_ok length (fst (OTPInput.run length events digits))
  /\ Forall (OTPInput.effect_ok length) (snd (OTPInput.run length events digits)).
Proof.
  revert digits. induction events as [|e rest IH]; intros digits Hok Hev.
  - split; [exact Hok | constructor].
  - inversion Hev as [|? ? He Hrest]; subst. simpl.
    destruct (handle_ok e digits Hok He) as [Hnext Heff].
    destruct (OTPInput.handle length e digits) as [digits' effects].
    destruct (IH digits' Hnext Hrest) as [Hlast Heff'].
    destruct (OTPInput.run length rest digits') as [digits'' effects'].
    split; [exact Hlast|]. apply Forall_app. split; assumption.
Qed.

(** X15: when the [value] prop holds digits, then through every sequence
    of typing, key presses, pastes and new values there are [length]
    boxes, each empty or holding one decimal digit; every value reported
    by [onChange] or [onComplete] consists of digits, a completed value
    has exactly [length] of them, and the focus is only ever moved to a
    box that is rendered. *)
Theorem otp_boxes_invariant (value : string) (events : list OTPInput.Event) :
  digits_only value ->
  Forall (OTPInput.event_ok length) events ->
  OTPInput.boxes_ok length
    (fst (OTPInput.run length events (OTPInput.digits_of length value)))
  /\ Forall (OTPInput.effect_ok length)
       (snd (OTPInput.run length events (OTPInput.digits_of length value))).
Proof.
  intros Hvalue Hev. apply run_ok; [|exact Hev].
  apply slots_of_boxes_ok, Hvalue.
Qed.

Lemma find_index_slots (p : string) (k n : nat) :
  k <= String.length p ->
  JS.find_index JS.is_empty (map (JS.char_or_empty p) (seq k n))
  = if String.length p <? k + n then Some (String.length p - k) else None.
Proof.
  revert k. induction n as [|n IH]; intros k Hk.
  - simpl. destruct (Nat.ltb_spec (String.length p) (k + 0)); [lia|reflexivity].
  - simpl.
    destruct (char_or_empty_cases p k) as [[Hle He]|[Hlt [c [Hc _]]]].
    + rewrite He. simpl.
      destruct (Nat.ltb_spec (String.length p) (k + S n)); [|lia].
      f_equal. lia.
    + rewrite Hc. simpl. rewrite IH by lia.
      replace (S k + n) with (k + S n) by lia.
      destruct (Nat.ltb_spec (String.length p) (k + S n)); [|reflexivity].
      f_equal. lia.
Qed.

Lemma substring_0_idem (n : nat) (s : string) :
  String.substring 0 n (String.substring 0 n s) = String.substring 0 n s.
Proof.
  revert s. induction n as [|n IH]; intros [|a s]; simpl; try reflexivity.
  rewrite IH. reflexivity.
Qed.

(** X16: a paste replaces the whole entry by the first [length] digits of
    the pasted text: the boxes hold those digits, one each, the rest are
    empty, [onChange] reports them, the focus goes to the first empty box
    (the last box when none is), and [onComplete] is called exactly when
    the text holds at least [length] digits.  A paste without a digit
    changes nothing and reports nothing. *)
Theorem paste_replaces_entry (digits : list string) (pastedData : string) :
  let typed := JS.strip_non_digits pastedData in
  let p := String.substring 0 length typed in
  OTPInput.handlePaste length digits pastedData
  = if JS.is_empty p then (digits, [])
    else (JS.slots_of length p,
          [OTPInput.onChange p;
           OTPInput.focus (if String.length p <? length
                           then String.length p else length - 1)]
          ++ (if length <=? String.length typed
              then [OTPInput.onComplete p] else []))%list.
Proof.
  intros typed p. unfold OTPInput.handlePaste, JS.slice_to.
  fold typed. fold p.
  destruct (JS.is_empty p); cbn [negb]; [reflexivity|].
  rewrite join_slots_of. unfold JS.slice_to.
  assert (Hpp : String.substring 0 length p = p)
    by (unfold p; apply substring_0_idem).
  rewrite Hpp. unfold JS.slots_of at 2.
  rewrite find_index_slots by lia. simpl (0 + length).
  rewrite Nat.sub_0_r.
  f_equal. f_equal.
  - f_equal. destruct (String.length p <? length); reflexivity.
  - unfold p at 1. rewrite substring_0_length.
    destruct (Nat.leb_spec length (String.length typed)) as [Hge|Hlt].
    + rewrite Nat.min_l by exact Hge. rewrite Nat.eqb_refl. reflexivity.
    + rewrite Nat.min_r by lia.
      destruct (Nat.eqb_spec (String.length typed) length); [lia|reflexivity].
Qed.

Lemma join_length_filled (ds : list string) :
  Forall OTPInput.box_ok ds ->
  String.length (JS.join ds) <= List.length ds
  /\ (String.length (JS.join ds) = List.length ds
      <-> Forall (fun d => d <> EmptyString) ds).
Proof.
  induction 1 as [|d ds Hd _ [IHle IHeq]]; simpl.
  - split; [lia|]. split; [constructor | reflexivity].
  - rewrite length_append.
    destruct Hd as [->|[c [-> _]]]; simpl.
    + split; [lia|]. split; [lia|].
      intros H. inversion H; congruence.
    + split; [lia|]. split.
      * intros H. constructor; [discriminate|]. apply IHeq. lia.
      * intros H. inversion H; subst. f_equal. apply IHeq. assumption.
Qed.

(** X17: typing into a box calls [onComplete] exactly when the input was
    accepted and no box is left empty; the completed value is the one
    [onChange] reports. *)
Theorem complete_iff_all_filled (digits : list string) (index : nat)
    (digit value : string) :
  OTPInput.boxes_ok length digits -> index < length ->
  let result := OTPInput.handleChange length digits index digit in
  In (OTPInput.onComplete value) (snd result)
  <-> In (OTPInput.onChange value) (snd result)
      /\ Forall (fun d => d <> EmptyString) (fst result).
Proof.
  intros Hok Hi result.
  destruct (handleChange_ok digits index digit Hok Hi) as [[Hlen Hall] _].
  fold result in Hlen, Hall.
  destruct (join_length_filled (fst result) Hall) as [_ Hfull].
  rewrite Hlen in Hfull. revert Hfull.
  unfold result, OTPInput.handleChange.
  set (d := if 1 <? String.length digit then JS.slice_last digit else digit).
  destruct (negb (JS.is_empty d) && negb (JS.test [JS.is_digit] d)).
  - cbn [fst snd]. intros _. split; [intros [] | intros [[] _]].
  - cbn [fst snd]. set (v := JS.join (JS.assign digits index d)).
    intros Hfull. rewrite <- Hfull.
    destruct (negb (JS.is_empty d) && (index + 1 <? length));
      destruct (Nat.eqb_spec (String.length v) length) as [Hv|Hv]; simpl;
      split; intros H; intuition (try discriminate; try congruence).
Qed.

End Boxes.

(** ** Class names *)

Lemma string_append_assoc (a b c : string) :
  String.append (String.append a b) c = String.append a (String.append b c).
Proof.
  induction a as [|x a IH]; [reflexivity|].
  rewrite !append_cons, IH. reflexivity.
Qed.

Lemma concat_app_cases (sep : string) (l1 l2 : list string) :
  String.concat sep (l1 ++ l2)
  = match l1, l2 with
    | [], _ => String.concat sep l2
    | _, [] => String.concat sep l1
    | _, _ => String.append (String.concat sep l1)
                (String.append sep (String.concat sep l2))
    end.
Proof.
  induction l1 as [|x l1 IH]; [reflexivity|].
  destruct l2 as [|y l2]; [rewrite app_nil_r; reflexivity|].
  destruct l1 as [|x' l1].
  - reflexivity.
  - change (String.concat sep ((x :: x' :: l1) ++ y :: l2))
      with (String.append x
              (String.append sep (String.concat sep ((x' :: l1) ++ y :: l2)))).
    rewrite IH.
    change (String.concat sep (x :: x' :: l1))
      with (String.append x (String.append sep (String.concat sep (x' :: l1)))).
    rewrite !string_append_assoc. reflexivity.
Qed.

Lemma join_not_empty (l : list string) :
  l <> [] -> l <> [EmptyString] -> cn_utils.join l <> EmptyString.
Proof.
  unfold cn_utils.join. destruct l as [|x [|y l]]; intros Hne Hone.
  - congruence.
  - simpl. intros ->. congruence.
  - change (String.concat " " (x :: y :: l))
      with (String.append x (String.append " " (String.concat " " (y :: l)))).
    intros H. apply (f_equal String.length) in H.
    rewrite !length_append in H. simpl in H. lia.
Qed.

Lemma is_empty_true (s : string) : JS.is_empty s = true <-> s = EmptyString.
Proof. destruct s; simpl; split; congruence. Qed.

(** X18: [cn] flattens an array argument, [cn(a, [b, c], d)] being
    [cn(a, b, c, d)], unless the array contributes exactly one class and
    that class is the empty key of an object; and an input that is falsy
    or a boolean contributes nothing. *)
Theorem cn_flattens (before inputs after : list cn_utils.ClassValue) :
  (flat_map cn_utils.pushed inputs <> [EmptyString] ->
   cn_utils.cn (before ++ [cn_utils.VArray inputs] ++ after)
   = cn_utils.cn (before ++ inputs ++ after))
  /\ (forall v,
        cn_utils.truthy v = false \/ (exists b, v = cn_utils.VBoolean b) ->
        cn_utils.cn (before ++ [v] ++ after) = cn_utils.cn (before ++ after)).
Proof.
  split.
  - intros Hone. unfold cn_utils.cn. rewrite !flat_map_app.
    cbn [flat_map cn_utils.pushed cn_utils.truthy negb]. rewrite app_nil_r.
    set (L := flat_map cn_utils.pushed inputs) in *.
    destruct (JS.is_empty (cn_utils.join L)) eqn:Hempty.
    + apply is_empty_true in Hempty.
      clearbody L. destruct (decide (L = [])) as [->|Hne]; [reflexivity|].
      destruct (join_not_empty L Hne Hone Hempty).
    + clearbody L. assert (Hne : L <> []).
      { intros HL. rewrite HL in Hempty. discriminate. }
      unfold cn_utils.join.
      rewrite (concat_app_cases " " (flat_map cn_utils.pushed before)),
              (concat_app_cases " " (flat_map cn_utils.pushed before)
                 (L ++ flat_map cn_utils.pushed after)),
              (concat_app_cases " " [cn_utils.join L]),
              (concat_app_cases " " L).
      unfold cn_utils.join.
      destruct (flat_map cn_utils.pushed before) as [|b B],
               (flat_map cn_utils.pushed after) as [|a A],
               L as [|x L']; try congruence; reflexivity.
  - intros v Hv. unfold cn_utils.cn. rewrite !flat_map_app.
    assert (Hnone : cn_utils.pushed v = []).
    { destruct Hv as [Hv|[b ->]].
      - destruct v; simpl in *; rewrite ?Hv; try reflexivity; discriminate.
      - destruct b; reflexivity. }
    cbn [flat_map]. rewrite Hnone. reflexivity.
Qed.

Lemma cn_flattens_witness :
  cn_utils.cn [cn_utils.VString "a";
               cn_utils.VArray [cn_utils.VString "b"; cn_utils.VNull;
                                cn_utils.VObject
                                  [("c", cn_utils.VBoolean true);
                                   ("d", cn_utils.VNumber true "0")]];
               cn_utils.VString "e"]
  = "a b c e"%string
  /\ cn_utils.cn [cn_utils.VString "a";
                  cn_utils.VArray
                    [cn_utils.VObject [(EmptyString, cn_utils.VBoolean true)]];
                  cn_utils.VString "b"]
     = "a b"%string
  /\ cn_utils.cn [cn_utils.VString "a";
                  cn_utils.VObject [(EmptyString, cn_utils.VBoolean true)];
                  cn_utils.VString "b"]
     = "a  b"%string.
Proof.
  split; [|split; reflexivity].
  etransitivity.
  - apply (proj1 (cn_flattens [cn_utils.VString "a"]
                    [cn_utils.VString "b"; cn_utils.VNull;
                     cn_utils.VObject [("c", cn_utils.VBoolean true);
                                       ("d", cn_utils.VNumber true "0")]]
                    [cn_utils.VString "e"])).
    discriminate.
  - reflexivity.
Defined.

Lemma otp_boxes_invariant_witness :
  OTPInput.run 4
    [OTPInput.Change 0 "7"; OTPInput.Change 1 "x"; OTPInput.Paste "a1b2-3";
     OTPInput.KeyDown 3 "Backspace"; OTPInput.Change 3 "49"]
    (OTPInput.digits_of 4 "12")
  = (["1"; "2"; "3"; "9"],
     [OTPInput.onChange "72"; OTPInput.focus 1;
      OTPInput.onChange "123"; OTPInput.focus 3;
      OTPInput.focus 2;
      OTPInput.onChange "1239"; OTPInput.onComplete "1239"])
  /\ OTPInput.boxes_ok 4 ["1"; "2"; "3"; "9"].
Proof.
  assert (H : OTPInput.run 4
                [OTPInput.Change 0 "7"; OTPInput.Change 1 "x";
                 OTPInput.Paste "a1b2-3";
                 OTPInput.KeyDown 3 "Backspace"; OTPInput.Change 3 "49"]
                (OTPInput.digits_of 4 "12")
              = (["1"; "2"; "3"; "9"],
                 [OTPInput.onChange "72"; OTPInput.focus 1;
                  OTPInput.onChange "123"; OTPInput.focus 3;
                  OTPInput.focus 2;
                  OTPInput.onChange "1239"; OTPInput.onComplete "1239"]))
    by reflexivity.
  split; [exact H|].
  assert (Hvalue : digits_only "12") by (repeat constructor).
  assert (Hev : Forall (OTPInput.event_ok 4)
                  [OTPInput.Change 0 "7"; OTPInput.Change 1 "x";
                   OTPInput.Paste "a1b2-3";
                   OTPInput.KeyDown 3 "Backspace"; OTPInput.Change 3 "49"]).
  { repeat constructor; simpl; lia. }
  pose proof (proj1 (otp_boxes_invariant 4 "12" _ Hvalue Hev)) as Hok.
  rewrite H in Hok. exact Hok.
Defined.

Lemma complete_iff_all_filled_witness :
  In (OTPInput.onComplete "1239")
     (snd (OTPInput.handleChange 4 ["1"; "2"; "3"; ""] 3 "9")).
Proof.
  apply (complete_iff_all_filled 4 ["1"; "2"; "3"; ""] 3 "9" "1239").
  - split; [reflexivity|].
    assert (Hb : forall c, JS.is_digit c = true ->
                           OTPInput.box_ok (String c EmptyString))
      by (intros c Hc; right; exists c; auto).
    constructor; [apply Hb; reflexivity|].
    constructor; [apply Hb; reflexivity|].
    constructor; [apply Hb; reflexivity|].
    constructor; [left; reflexivity | constructor].
  - lia.
  - split; [left; reflexivity|].
    constructor; [discriminate|].
    constructor; [discriminate|].
    constructor; [discriminate|].
    constructor; [discriminate | constructor].
Defined.

End FrontFacts.
